(** * goto: host model and host edit form

    A shallow embedding of
    - the host data model ([Host], [Clone], [IsUserDefinedSSHCommand] and the
      command builders [CmdSSHConnect], [CmdSSHConfig], [CmdSSHCopyID]), and
    - the edit form controller of [internal/ui/component/hostedit]
      ([save], [copyInputValueFromTo], [focusedInputProcessKeyEvent],
      [inputFocusChange], [updateInputTitles], [handleDebouncedMessage],
      [Update]),
    followed by the properties proved about them.

    Conventions.
    - A Go [string] is a Rocq [string]: a sequence of bytes. A [rune] is
      a [Z], and [utf8.String] is the conversion of runes to a string.
    - A Go [int] is a [Z] kept in the 64-bit signed range by [goint.wrap].
    - A method with a pointer receiver that writes through it returns the
      updated receiver; a method that only reads it is a plain function.
    - A run-time panic (index out of range, nil dereference, call of a nil
      function) is the result [None].
    - Rendering and logging (viewport, help, styles, logger) are write-only
      for everything stated here and are left out of the state. *)

From Stdlib Require Import String Ascii List ZArith Lia Bool.
From stdpp Require Import base option list strings.
Import ListNotations.

Set Warnings "-register-all".

Local Open Scope string_scope.
Local Open Scope Z_scope.

(* ===================================================================== *)
(** ** Go integers *)
(* ===================================================================== *)

Module goint.

(** Two's complement wrap-around of a 64-bit [int]. *)
Definition wrap (z : Z) : Z := (z + 2 ^ 63) mod 2 ^ 64 - 2 ^ 63.

Definition inRange (z : Z) : Prop := - 2 ^ 63 <= z < 2 ^ 63.

Definition add (a b : Z) : Z := wrap (a + b).
Definition sub (a b : Z) : Z := wrap (a - b).

(** [len(s)] of a slice. *)
Definition len {A} (l : list A) : Z := Z.of_nat (length l).

(** [s[i]]: [None] is the index-out-of-range panic. *)
Definition index {A} (l : list A) (i : Z) : option A :=
  if (0 <=? i) then l !! Z.to_nat i else None.

(** [s[i] = x] on a slice whose index [i] was checked by [index]. *)
Definition store {A} (l : list A) (i : Z) (x : A) : list A :=
  <[Z.to_nat i := x]> l.

End goint.

(* ===================================================================== *)
(** ** Package strings of the Go library *)
(* ===================================================================== *)

Module strings.

Definition bytes (s : string) : list ascii := list_ascii_of_string s.

(** The code points of [unicode.IsSpace], each as its UTF-8 bytes:
    U+0009..U+000D, U+0020, U+0085, U+00A0, U+1680, U+2000..U+200A,
    U+2028, U+2029, U+202F, U+205F, U+3000. *)
Definition spaceRunes : list (list ascii) :=
  map (map ascii_of_nat)
    [ [9]; [10]; [11]; [12]; [13]; [32];
      [194; 133]; [194; 160];
      [225; 154; 128];
      [226; 128; 128]; [226; 128; 129]; [226; 128; 130]; [226; 128; 131];
      [226; 128; 132]; [226; 128; 133]; [226; 128; 134]; [226; 128; 135];
      [226; 128; 136]; [226; 128; 137]; [226; 128; 138];
      [226; 128; 168]; [226; 128; 169]; [226; 128; 175];
      [226; 129; 159];
      [227; 128; 128] ]%nat.

(** [cutPrefix p s]: [s] without its prefix [p], when it has it. *)
Fixpoint cutPrefix (p s : list ascii) : option (list ascii) :=
  match p, s with
  | [], _ => Some s
  | a :: p', b :: s' => if Ascii.eqb a b then cutPrefix p' s' else None
  | _ :: _, [] => None
  end.

Fixpoint cutAny (ps : list (list ascii)) (s : list ascii)
  : option (list ascii) :=
  match ps with
  | [] => None
  | p :: ps' =>
      match cutPrefix p s with
      | Some r => Some r
      | None => cutAny ps' s
      end
  end.

(** Drop runes of [ps] from the front while there is one; every round
    drops at least one byte, so [length s] rounds are enough. *)
Fixpoint dropWhile (ps : list (list ascii)) (fuel : nat) (s : list ascii)
  : list ascii :=
  match fuel with
  | O => s
  | S fuel' =>
      match cutAny ps s with
      | Some r => dropWhile ps fuel' r
      | None => s
      end
  end.

Definition trimLeft (s : list ascii) : list ascii :=
  dropWhile spaceRunes (length s) s.

(** The last rune of a string is a space exactly when the string ends
    with the bytes of one: trimming on the right is trimming the
    reversed string by the reversed encodings. *)
Definition trimRight (s : list ascii) : list ascii :=
  let r := rev s in rev (dropWhile (map (@rev ascii) spaceRunes) (length r) r).

(** [strings.TrimSpace]: [TrimRightFunc(TrimLeftFunc(s, IsSpace), IsSpace)]. *)
Definition TrimSpace (s : string) : string :=
  string_of_list_ascii (trimRight (trimLeft (bytes s))).

(** [strings.Contains(s, substr)]: [substr] occurs at some offset of [s]. *)
Fixpoint Contains (s substr : string) : bool :=
  String.prefix substr s
  || match s with
     | EmptyString => false
     | String _ s' => Contains s' substr
     end.

End strings.

(* ===================================================================== *)
(** ** Runes and their UTF-8 encoding *)
(* ===================================================================== *)

Module utf8.

(** A [rune] is an [int32], here a [Z]. *)
Definition RuneError : Z := 65533.          (* U+FFFD *)
Definition MaxRune : Z := 1114111.          (* U+10FFFF *)

Definition byte (z : Z) : ascii := ascii_of_N (Z.to_N (z mod 256)).

(** [utf8.AppendRune(nil, r)]: the bytes of the rune [r]; a surrogate and
    a value out of range are written as [RuneError]. *)
Definition EncodeRune (r : Z) : list ascii :=
  let three (r : Z) :=
    [ byte (Z.lor 224 (Z.shiftr r 12));
      byte (Z.lor 128 (Z.land (Z.shiftr r 6) 63));
      byte (Z.lor 128 (Z.land r 63)) ] in
  if (0 <=? r) && (r <=? 127) then [byte r]
  else if (0 <=? r) && (r <=? 2047) then
    [ byte (Z.lor 192 (Z.shiftr r 6)); byte (Z.lor 128 (Z.land r 63)) ]
  else if (r <? 0) || (MaxRune <? r) || ((55296 <=? r) && (r <=? 57343)) then
    three RuneError
  else if r <=? 65535 then three r
  else
    [ byte (Z.lor 240 (Z.shiftr r 18));
      byte (Z.lor 128 (Z.land (Z.shiftr r 12) 63));
      byte (Z.lor 128 (Z.land (Z.shiftr r 6) 63));
      byte (Z.lor 128 (Z.land r 63)) ].

(** The conversion [string(runes)] of a slice of runes. *)
Definition String (runes : list Z) : string :=
  string_of_list_ascii (concat (map EncodeRune runes)).

End utf8.

(* ===================================================================== *)
(** ** Package ssh: options and the resolved client configuration *)
(* ===================================================================== *)

Module ssh.

(** Modelled from the spec: package [internal/model/ssh] is not among the
    sources. [ssh.Config] is the snapshot produced by the configuration
    loader, with the four fields the host model reads. *)
Record Config : Type := mkConfig {
  Hostname : string;
  IdentityFile : string;
  Port : string;
  User : string
}.

(** Modelled from the spec: the option values the host model hands to the
    command constructors, each a struct with the one field [Value]. *)
Inductive Option : Type :=
| OptionPrivateKey (Value : string)
| OptionRemotePort (Value : string)
| OptionLoginName (Value : string)
| OptionAddress (Value : string)
| OptionReadConfig (Value : string).

(** The three command constructors of the package are not among the
    sources either; the host model is parameterised by them. *)
Class Commands : Type := {
  ConnectCommand : list Option -> string;
  LoadConfigCommand : list Option -> string;
  CopyIDCommand : list Option -> string
}.

End ssh.

(* ===================================================================== *)
(** ** Package host: the host data model *)
(* ===================================================================== *)

Module host.

Record Host : Type := mkHost {
  ID : Z;
  Title : string;
  Description : string;
  Address : string;
  RemotePort : string;
  LoginName : string;
  IdentityFilePath : string;
  Password : string;
  SSHClientConfig : option ssh.Config   (* *ssh.Config, nil is None *)
}.

Definition NewHost (id : Z)
    (title description address loginName identityFilePath remotePort
     password : string) : Host :=
  {| ID := id;
     Title := title;
     Description := description;
     Address := address;
     LoginName := loginName;
     RemotePort := remotePort;
     IdentityFilePath := identityFilePath;
     Password := password;
     SSHClientConfig := None |}.

(** [Clone] reads its receiver and builds a new value; the fields the
    composite literal leaves out take their zero value. *)
Definition Clone (h : Host) : Host :=
  {| ID := 0;
     Title := Title h;
     Description := Description h;
     Address := Address h;
     LoginName := LoginName h;
     IdentityFilePath := IdentityFilePath h;
     RemotePort := RemotePort h;
     Password := Password h;
     SSHClientConfig := None |}.

Definition IsUserDefinedSSHCommand (h : Host) : bool :=
  let rawValue := strings.TrimSpace (Address h) in
  let containsSpace := strings.Contains rawValue " " in
  let containsAtSymbol := strings.Contains rawValue "@" in
  containsSpace || containsAtSymbol.

Section Commands.
Context {cmds : ssh.Commands}.

(** [fmt.Sprintf("sshpass -p '%s' %s", password, command)]. *)
Definition sshpass (password command : string) : string :=
  "sshpass -p '" ++ password ++ "' " ++ command.

Definition CmdSSHConnect (h : Host) : string :=
  if IsUserDefinedSSHCommand h then
    ssh.ConnectCommand [ssh.OptionAddress (Address h)]
  else
    let options :=
      [ ssh.OptionPrivateKey (IdentityFilePath h);
        ssh.OptionRemotePort (RemotePort h);
        ssh.OptionLoginName (LoginName h);
        ssh.OptionAddress (Address h) ] in
    if negb (String.eqb (Password h) "") then
      sshpass (Password h) (ssh.ConnectCommand options)
    else
      ssh.ConnectCommand options.

Definition CmdSSHConfig (h : Host) : string :=
  if IsUserDefinedSSHCommand h then
    ssh.LoadConfigCommand [ssh.OptionReadConfig (Address h)]
  else
    ssh.LoadConfigCommand
      [ ssh.OptionPrivateKey (IdentityFilePath h);
        ssh.OptionRemotePort (RemotePort h);
        ssh.OptionLoginName (LoginName h);
        ssh.OptionReadConfig (Address h) ].

(** Every line of the body goes through the pointer [h.SSHClientConfig]:
    a nil pointer panics at the first of them. *)
Definition CmdSSHCopyID (h : Host) : option string :=
  match SSHClientConfig h with
  | None => None
  | Some c =>
      let hostname := ssh.Hostname c in
      let identityFile := ssh.IdentityFile c in
      let port := ssh.Port c in
      let user := ssh.User c in
      Some (ssh.CopyIDCommand
              [ ssh.OptionLoginName user;
                ssh.OptionRemotePort port;
                ssh.OptionPrivateKey identityFile;
                ssh.OptionAddress hostname ])
  end.

End Commands.

End host.

(* ===================================================================== *)
(** ** Package model: the record the form edits *)
(* ===================================================================== *)

Module model.

(** Modelled from the spec: the declaration of [model.Host] (package
    [internal/model], imported by hostedit.go) is not among the sources.
    Its fields are the ones hostedit.go reads and writes, with the types
    the host data model gives them. *)
Record Host : Type := mkHost {
  ID : Z;
  Title : string;
  Description : string;
  Address : string;
  RemotePort : string;
  LoginName : string;
  PrivateKeyPath : string
}.

(** [model.Host{}] *)
Definition zero : Host := mkHost 0 "" "" "" "" "" "".

End model.

(* ===================================================================== *)
(** ** Messages and commands of the message loop *)
(* ===================================================================== *)

(** [tea.Msg], restricted to the messages the form receives or emits.
    Modelled from the spec: the messages of [internal/ui/message] and
    [hostlist] are not among the sources; they carry what hostedit.go puts
    in them. *)
Inductive Msg : Type :=
| WindowSizeMsg (Width Height : Z)
| KeyMsg (key : string)                       (* the key as [msg.String()] *)
| debouncedMessage (wrappedMsg : Msg) (debounceTag : Z)
| HostSSHConfigLoaded (config : ssh.Config)
| RunProcessLoadSSHConfig (SSHConfigHostname : string)
| MsgClose
| MsgSave
| HostListSelectItem (HostID : Z)
| MsgRefreshRepo.

(** [tea.Cmd]. The closure handed to [tea.Tick] by [handleDebouncedMessage]
    is represented by the envelope it captures; its body is [tickCallback]
    below, run against the model as it is when the timer fires. *)
Inductive Cmd : Type :=
| CmdNil                                       (* nil *)
| TeaCmd (msg : Msg)                           (* message.TeaCmd(msg) *)
| Sequence (cmds : list Cmd)                   (* tea.Sequence(cmds...) *)
| Batch (cmds : list Cmd)                      (* tea.Batch(cmds...) *)
| Tick (d : Z) (wrappedMsg : Msg) (debounceTag : Z)
| FocusCmd.                                    (* what input.Focus() returns *)

(** The messages a sequence of immediate commands emits, in order. *)
Definition emitted (c : Cmd) : option (list Msg) :=
  match c with
  | CmdNil => Some []
  | TeaCmd msg => Some [msg]
  | Sequence cmds =>
      mapM (fun c => match c with TeaCmd msg => Some msg | _ => None end) cmds
  | _ => None
  end.

(* ===================================================================== *)
(** ** The text input widget *)
(* ===================================================================== *)

Module input.

(** Modelled from the spec: the widget ([internal/ui/component/input],
    a text input of the terminal library with a label and an enabled flag)
    is not among the sources. The record holds what the form reads and
    writes: label, text, placeholder, character limit, the pluggable
    validator ([nil] is [None]; an error is its message), the last error,
    the enabled flag, the focus flag and the cursor position. The text is
    kept as the widget keeps it, a slice of runes; the limit and the
    cursor count runes. *)
Record Input : Type := mkInput {
  Label : string;
  value : list Z;
  Placeholder : string;
  CharLimit : Z;
  Validate : option (string -> option string);
  Err : option string;
  enabled : bool;
  focused : bool;
  cursor : Z
}.

Definition withLabel (x : string) (i : Input) : Input :=
  mkInput x (value i) (Placeholder i) (CharLimit i) (Validate i) (Err i)
          (enabled i) (focused i) (cursor i).
Definition withValue (x : list Z) (i : Input) : Input :=
  mkInput (Label i) x (Placeholder i) (CharLimit i) (Validate i) (Err i)
          (enabled i) (focused i) (cursor i).
Definition withPlaceholder (x : string) (i : Input) : Input :=
  mkInput (Label i) (value i) x (CharLimit i) (Validate i) (Err i)
          (enabled i) (focused i) (cursor i).
Definition withCharLimit (x : Z) (i : Input) : Input :=
  mkInput (Label i) (value i) (Placeholder i) x (Validate i) (Err i)
          (enabled i) (focused i) (cursor i).
Definition withValidate (x : option (string -> option string)) (i : Input)
  : Input :=
  mkInput (Label i) (value i) (Placeholder i) (CharLimit i) x (Err i)
          (enabled i) (focused i) (cursor i).
Definition withErr (x : option string) (i : Input) : Input :=
  mkInput (Label i) (value i) (Placeholder i) (CharLimit i) (Validate i) x
          (enabled i) (focused i) (cursor i).
Definition withEnabled (x : bool) (i : Input) : Input :=
  mkInput (Label i) (value i) (Placeholder i) (CharLimit i) (Validate i)
          (Err i) x (focused i) (cursor i).
Definition withFocused (x : bool) (i : Input) : Input :=
  mkInput (Label i) (value i) (Placeholder i) (CharLimit i) (Validate i)
          (Err i) (enabled i) x (cursor i).
Definition withCursor (x : Z) (i : Input) : Input :=
  mkInput (Label i) (value i) (Placeholder i) (CharLimit i) (Validate i)
          (Err i) (enabled i) (focused i) x.

(** Modelled from the spec: [input.New()], an empty enabled field with no
    character limit. *)
Definition New : Input := mkInput "" [] "" 0 None None true false 0.

(** [Value()]: [string(m.value)]. *)
Definition Value (i : Input) : string := utf8.String (value i).
Definition SetLabel (s : string) (i : Input) : Input := withLabel s i.
Definition SetEnabled (b : bool) (i : Input) : Input := withEnabled b i.
Definition Focus (i : Input) : Input * Cmd := (withFocused true i, FocusCmd).
Definition Blur (i : Input) : Input := withFocused false i.

(** [SetCursor(pos)]: [m.pos = clamp(pos, 0, len(m.value))]. *)
Definition SetCursor (pos : Z) (i : Input) : Input :=
  withCursor (Z.min (goint.len (value i)) (Z.max 0 pos)) i.

(** The runes the widget makes of a text it is handed,
    [m.san().Sanitize([]rune(s))]: the text decoded, with what the
    sanitizer of the widget replaces or drops. The sanitizer is not among
    the sources; everything proved holds for every such function. *)
Class Sanitizer : Type := Sanitize : string -> list Z.

(** The cut of [setValueInternal]: with a positive [CharLimit], the first
    [CharLimit] runes of a longer text. *)
Definition cut (limit : Z) (runes : list Z) : list Z :=
  if (0 <? limit) && (limit <? goint.len runes)
  then take (Z.to_nat limit) runes
  else runes.

(** Modelled from the spec: [SetValue] of the text input the widget
    embeds, as its contract and the comment in [copyInputValueFromTo] have
    it. It runs the validator, when there is one, on the runes it made of
    the text, and a text the validator refuses is not stored; of a text it
    stores it keeps the first [CharLimit] runes when the limit is positive,
    and it moves the cursor to the end of the text when the field was
    empty with the cursor at its start, or when the text ends before the
    cursor. *)
Definition SetValue {san : Sanitizer} (s : string) (i : Input) : Input :=
  let runes := Sanitize s in
  let store (i : Input) : Input :=
    let empty := goint.len (value i) =? 0 in
    let i := withErr None i in
    let i := withValue (cut (CharLimit i) runes) i in
    if ((cursor i =? 0) && empty) || (goint.len (value i) <? cursor i)
    then SetCursor (goint.len (value i)) i
    else i in
  match Validate i with
  | Some validate =>
      match validate (utf8.String runes) with
      | Some err => withErr (Some err) i
      | None => store i
      end
  | None => store i
  end.

End input.

(* ===================================================================== *)
(** ** Collaborators of the form *)
(* ===================================================================== *)

(** Modelled from the spec: [storage.HostStorage], the two methods the form
    calls. [Get] fails with an error when the id is unknown; [Save] returns
    the record as stored, with the id the storage gave it, and an error. *)
Class HostStorage (S : Type) : Type := {
  storageGet : S -> Z -> option model.Host;
  storageSave : S -> model.Host -> S * (model.Host * option string)
}.

Module key.

(** [key.Binding]: the keys of a binding and whether it is switched off. *)
Record Binding : Type := mkBinding {
  keys : list string;
  disabled : bool
}.

Definition SetEnabled (b : bool) (k : Binding) : Binding :=
  mkBinding (keys k) (negb b).

(** [key.Matches(msg, binding)]: an enabled binding that lists the key. *)
Definition Matches (msg : string) (b : Binding) : bool :=
  existsb (fun v => String.eqb msg v && negb (disabled b)) (keys b).

End key.

(** Modelled from the spec: the declaration of [keyMap] is not among the
    sources; these are the bindings hostedit.go names. *)
Record keyMap : Type := mkKeyMap {
  Save : key.Binding;
  CopyInputValue : key.Binding;
  Down : key.Binding;
  Up : key.Binding;
  Discard : key.Binding
}.

(** Modelled from the spec: [state.ApplicationState], the fields the form
    reads. *)
Record ApplicationState : Type := mkApplicationState {
  Width : Z;
  Height : Z;
  HostSSHConfig : ssh.Config
}.

(** What the package takes from code that is not among the sources. *)
Class Environment : Type := {
  (** the package variable [keys] *)
  keys : keyMap;
  (** [utils.StringEmpty] *)
  StringEmpty : string -> bool;
  (** [strconv.ParseUint(s, base, bitSize)]; [None] is an error *)
  ParseUint : string -> Z -> Z -> option Z;
  (** [Update] of the widget: what a message does to one field *)
  inputUpdate : Msg -> input.Input -> input.Input;
  (** the sanitizer of the widget *)
  inputSanitizer :: input.Sanitizer
}.

(* ===================================================================== *)
(** ** Package hostedit: the edit form *)
(* ===================================================================== *)

Module hostedit.

Import input.

Definition inputTitle : Z := 0.
Definition inputAddress : Z := 1.
Definition inputDescription : Z := 2.
Definition inputLogin : Z := 3.
Definition inputNetworkPort : Z := 4.
Definition inputIdentityFile : Z := 5.

Definition defaultTitle : string := "host details".
(** [time.Millisecond * 500], in milliseconds *)
Definition debounceTime : Z := 500.

Section Form.
Context {env : Environment} {Store : Type} {storage : HostStorage Store}.

Definition notEmptyValidator (s : string) : option string :=
  if StringEmpty s then Some "value is required" else None.

Definition networkPortValidator (s : string) : option string :=
  if StringEmpty s then None
  else
    let auto := 0 in
    let maxLengthBit := 16 in
    match ParseUint s auto maxLengthBit with
    | None =>
        Some "network port must be a number which is less than 65,535"
    | Some num =>
        if num <? 1 then
          Some "network port must be a number which is less than 65,535"
        else None
    end.

(** [getKeyMap] switches the copy shortcut of the package variable
    [keys] and returns a copy of it; nothing else of [keys] changes. *)
Definition getKeyMap (focusedInput : Z) : keyMap :=
  let enable :=
    (focusedInput =? inputTitle) || (focusedInput =? inputAddress) in
  mkKeyMap (Save keys) (key.SetEnabled enable (CopyInputValue keys))
           (Down keys) (Up keys) (Discard keys).

Record editModel : Type := mkEditModel {
  appState : ApplicationState;
  focusedInput : Z;
  host : model.Host;
  hostStorage : Store;
  inputs : list Input;
  isNewHost : bool;
  keyMap_ : keyMap;
  ready : bool;
  title : string;
  debounceTag : Z
}.

Definition withFocusedInput (x : Z) (m : editModel) : editModel :=
  mkEditModel (appState m) x (host m) (hostStorage m) (inputs m)
              (isNewHost m) (keyMap_ m) (ready m) (title m) (debounceTag m).
Definition withHost (x : model.Host) (m : editModel) : editModel :=
  mkEditModel (appState m) (focusedInput m) x (hostStorage m) (inputs m)
              (isNewHost m) (keyMap_ m) (ready m) (title m) (debounceTag m).
Definition withHostStorage (x : Store) (m : editModel) : editModel :=
  mkEditModel (appState m) (focusedInput m) (host m) x (inputs m)
              (isNewHost m) (keyMap_ m) (ready m) (title m) (debounceTag m).
Definition withInputs (x : list Input) (m : editModel) : editModel :=
  mkEditModel (appState m) (focusedInput m) (host m) (hostStorage m) x
              (isNewHost m) (keyMap_ m) (ready m) (title m) (debounceTag m).
Definition withKeyMap (x : keyMap) (m : editModel) : editModel :=
  mkEditModel (appState m) (focusedInput m) (host m) (hostStorage m)
              (inputs m) (isNewHost m) x (ready m) (title m) (debounceTag m).
Definition withReady (x : bool) (m : editModel) : editModel :=
  mkEditModel (appState m) (focusedInput m) (host m) (hostStorage m)
              (inputs m) (isNewHost m) (keyMap_ m) x (title m) (debounceTag m).
Definition withTitle (x : string) (m : editModel) : editModel :=
  mkEditModel (appState m) (focusedInput m) (host m) (hostStorage m)
              (inputs m) (isNewHost m) (keyMap_ m) (ready m) x (debounceTag m).
Definition withDebounceTag (x : Z) (m : editModel) : editModel :=
  mkEditModel (appState m) (focusedInput m) (host m) (hostStorage m)
              (inputs m) (isNewHost m) (keyMap_ m) (ready m) (title m) x.

(** [m.inputs[i] = x] *)
Definition setInput (i : Z) (x : Input) (m : editModel) : editModel :=
  withInputs (goint.store (inputs m) i x) m.

(** *** New *)

(** The body of the loop of [New]: the field of ordinal [i]. *)
Definition newInput (h : model.Host) (st : ApplicationState) (i : Z)
  : Input :=
  let t := input.New in
  if i =? inputTitle then
    let t := SetLabel "Title" t in
    let t := SetValue (model.Title h) t in
    let t := withPlaceholder "*required*" t in
    withValidate (Some notEmptyValidator) t
  else if i =? inputAddress then
    let t := SetLabel "Host" t in
    let t := withCharLimit 128 t in
    let t := SetValue (model.Address h) t in
    let t := withPlaceholder "*required*" t in
    withValidate (Some notEmptyValidator) t
  else if i =? inputDescription then
    let t := SetLabel "Description" t in
    let t := withCharLimit 512 t in
    let t := withPlaceholder "n/a" t in
    SetValue (model.Description h) t
  else if i =? inputLogin then
    let t := SetLabel "Login" t in
    let t := withCharLimit 128 t in
    let t := withPlaceholder ("default: " ++ ssh.User (HostSSHConfig st)) t in
    SetValue (model.LoginName h) t
  else if i =? inputNetworkPort then
    let t := SetLabel "Network port" t in
    let t := withCharLimit 5 t in
    let t := withPlaceholder ("default: " ++ ssh.Port (HostSSHConfig st)) t in
    let t := SetValue (model.RemotePort h) t in
    withValidate (Some networkPortValidator) t
  else if i =? inputIdentityFile then
    let t := SetLabel "Identity file" t in
    let t := withCharLimit 512 t in
    let t :=
      withPlaceholder ("default: " ++ ssh.IdentityFile (HostSSHConfig st)) t in
    SetValue (model.PrivateKeyPath h) t
  else t.

(** [New(ctx, storage, state, log)]; [itemID] is what the context holds
    under [ItemID] when that is an [int]. *)
Definition New (itemID : option Z) (st : Store) (state : ApplicationState)
  : option editModel :=
  let initialFocusedInput := inputTitle in
  let hostID := default 0 itemID in
  let found := storageGet st hostID in
  let h := default model.zero found in
  let m :=
    mkEditModel state initialFocusedInput h st
      (map (fun i => newInput h state (Z.of_nat i)) (seq 0 6))
      (bool_decide (found = None)) (getKeyMap initialFocusedInput)
      false defaultTitle 0 in
  t ← goint.index (inputs m) (focusedInput m);
  Some (setInput (focusedInput m) (fst (Focus t)) m).

(** *** handleDebouncedMessage and the timer callback *)

Definition handleDebouncedMessage (wrappedMsg : Msg) (tag : Z)
    (m : editModel) : editModel * Cmd :=
  let m := withDebounceTag (goint.add (debounceTag m) 1) m in
  (m, Tick debounceTime wrappedMsg tag).

(** The function handed to [tea.Tick]: it reads the tag of the model
    when the timer fires; [None] is the nil message. *)
Definition tickCallback (wrappedMsg : Msg) (tag : Z) (m : editModel)
  : option Msg :=
  if tag =? goint.sub (debounceTag m) 1 then Some wrappedMsg else None.

(** *** save *)

(** The [switch i] of [save]. *)
Definition bindField (i : Z) (v : string) (h : model.Host) : model.Host :=
  if i =? inputTitle then
    model.mkHost (model.ID h) v (model.Description h) (model.Address h)
      (model.RemotePort h) (model.LoginName h) (model.PrivateKeyPath h)
  else if i =? inputAddress then
    model.mkHost (model.ID h) (model.Title h) (model.Description h) v
      (model.RemotePort h) (model.LoginName h) (model.PrivateKeyPath h)
  else if i =? inputDescription then
    model.mkHost (model.ID h) (model.Title h) v (model.Address h)
      (model.RemotePort h) (model.LoginName h) (model.PrivateKeyPath h)
  else if i =? inputLogin then
    model.mkHost (model.ID h) (model.Title h) (model.Description h)
      (model.Address h) (model.RemotePort h) v (model.PrivateKeyPath h)
  else if i =? inputNetworkPort then
    model.mkHost (model.ID h) (model.Title h) (model.Description h)
      (model.Address h) v (model.LoginName h) (model.PrivateKeyPath h)
  else if i =? inputIdentityFile then
    model.mkHost (model.ID h) (model.Title h) (model.Description h)
      (model.Address h) (model.RemotePort h) (model.LoginName h) v
  else h.

(** What the validator of a field says of its current text. *)
Definition validation (inp : Input) : option string :=
  match Validate inp with
  | Some validate => validate (Value inp)
  | None => None
  end.

(** The loop of [save] from index [i] on, [n] fields to go. The flag
    tells whether the loop returned from inside ([true]) or ran to its
    end ([false]). *)
Fixpoint saveLoop (n : nat) (i : Z) (m : editModel)
  : option (editModel * bool) :=
  match n with
  | O => Some (m, false)
  | S n' =>
      inp ← goint.index (inputs m) i;
      match validation inp with
      | Some err =>
          let m := setInput i (withErr (Some err) inp) m in
          let m := withTitle (Label inp ++ " is not valid") m in
          Some (m, true)
      | None =>
          let m := withHost (bindField i (Value inp) (host m)) m in
          saveLoop n' (i + 1) m
      end
  end.

Definition save (m : editModel) : option (editModel * Cmd) :=
  '(m, returned) ← saveLoop (length (inputs m)) 0 m;
  if returned : bool then Some (m, CmdNil)
  else
    let '(st, (h, _)) := storageSave (hostStorage m) (host m) in
    Some (withHostStorage st m,
          Sequence
            [ TeaCmd MsgClose;
              TeaCmd (HostListSelectItem (model.ID h));
              TeaCmd MsgRefreshRepo ]).

(** *** copyInputValueFromTo *)

Definition copyInputValueFromTo (sourceInput destinationInput : Z)
    (m : editModel) : option editModel :=
  src ← goint.index (inputs m) sourceInput;
  let newValue := Value src in
  dst ← goint.index (inputs m) destinationInput;
  let validator := Validate dst in
  let dst := withValidate None dst in
  let dst := SetValue newValue dst in
  let dst := SetCursor (Z.of_nat (String.length newValue)) dst in
  let dst := withValidate validator dst in
  validate ← validator;             (* calling a nil validator panics *)
  let dst := withErr (validate newValue) dst in
  Some (setInput destinationInput dst m).

(** *** focusedInputProcessKeyEvent *)

(** The receiver is a copy of the model, but the copy shares the fields
    of [inputs] with the original: what the body does to the fields
    stays, and the body assigns to nothing else. *)
Definition focusedInputProcessKeyEvent (msg : Msg) (m : editModel)
  : option (editModel * Cmd) :=
  focused ← goint.index (inputs m) (focusedInput m);
  let previousValue := Value focused in
  shouldUpdateTitle ←
    (if focusedInput m =? inputTitle then
       t ← goint.index (inputs m) inputTitle;
       a ← goint.index (inputs m) inputAddress;
       let addressEqualsTitle := String.eqb (Value t) (Value a) in
       Some (isNewHost m && addressEqualsTitle)
     else Some false);
  let m := setInput (focusedInput m) (inputUpdate msg focused) m in
  m ← (if shouldUpdateTitle : bool
       then copyInputValueFromTo inputTitle inputAddress m
       else Some m);
  if focusedInput m =? inputAddress then
    a ← goint.index (inputs m) inputAddress;
    let currentValue := Value a in
    if negb (String.eqb previousValue currentValue) then
      Some (m, TeaCmd (debouncedMessage
                         (RunProcessLoadSSHConfig currentValue)
                         (debounceTag m)))
    else Some (m, CmdNil)
  else Some (m, CmdNil).

(** *** updateViewPort: of the view port only [ready] is kept *)

Definition updateViewPort (m : editModel) : editModel :=
  if ready m then m else withReady true m.

(** *** inputFocusChange *)

(** The loop that validates every field and moves the focus flag, from
    index [i] on, [n] fields to go. *)
Fixpoint focusLoop (n : nat) (i : Z) (m : editModel) (cmds : list Cmd)
  : option (editModel * list Cmd) :=
  match n with
  | O => Some (m, cmds)
  | S n' =>
      inp ← goint.index (inputs m) i;
      let inp :=
        match Validate inp with
        | Some validate => withErr (validate (Value inp)) inp
        | None => inp
        end in
      if i =? focusedInput m then
        let m := withKeyMap (getKeyMap i) m in
        let '(inp, c) := Focus inp in
        focusLoop n' (i + 1) (setInput i inp m) (cmds ++ [c])
      else
        focusLoop n' (i + 1) (setInput i (Blur inp) m) cmds
  end.

Definition inputFocusChange (msg : Msg) (m : editModel)
  : option (editModel * Cmd) :=
  match msg with
  | KeyMsg keyMsg =>
      let minFocusIndex := 0 in
      let maxFocusIndex := goint.sub (goint.len (inputs m)) 1 in
      let moved :=
        if key.Matches keyMsg (Up (keyMap_ m))
           && (minFocusIndex <? focusedInput m) then
          Some (withFocusedInput (goint.sub (focusedInput m) 1) m)
        else if key.Matches keyMsg (Down (keyMap_ m))
                && (focusedInput m <? maxFocusIndex) then
          Some (withFocusedInput (goint.add (focusedInput m) 1) m)
        else None in
      match moved with
      | None => Some (m, CmdNil)
      | Some m =>
          '(m, cmds) ← focusLoop (length (inputs m)) 0 m [];
          Some (m, Batch cmds)
      end
  | _ => None                        (* msg.(tea.KeyMsg) panics *)
  end.

(** *** handleCopyInputValueShortcut *)

Definition handleCopyInputValueShortcut (m : editModel)
  : option editModel :=
  if focusedInput m =? inputTitle then
    copyInputValueFromTo (focusedInput m) inputAddress m
  else if focusedInput m =? inputAddress then
    copyInputValueFromTo (focusedInput m) inputTitle m
  else Some m.

(** *** isCustomConnectString and what follows from it *)

Definition isCustomConnectString (m : editModel) : option bool :=
  a ← goint.index (inputs m) inputAddress;
  let rawValue := strings.TrimSpace (Value a) in
  let containsSpace := strings.Contains rawValue " " in
  let containsAtSymbol := strings.Contains rawValue "@" in
  Some (containsSpace || containsAtSymbol).

(** [m.inputs[i].Placeholder = s] *)
Definition setPlaceholder (i : Z) (s : string) (m : editModel)
  : option editModel :=
  inp ← goint.index (inputs m) i;
  Some (setInput i (withPlaceholder s inp) m).

Definition updateInputPlaceholders (m : editModel) : option editModel :=
  custom ← isCustomConnectString m;
  let prefix := if custom : bool then "readonly: " else "default: " in
  let cfg := HostSSHConfig (appState m) in
  m ← setPlaceholder inputLogin (prefix ++ ssh.User cfg) m;
  m ← setPlaceholder inputNetworkPort (prefix ++ ssh.Port cfg) m;
  setPlaceholder inputIdentityFile (prefix ++ ssh.IdentityFile cfg) m.

(** [i.SetEnabled(b)] through the pointer [&m.inputs[i]] *)
Definition setEnabledAt (b : bool) (m : editModel) (i : Z) : editModel :=
  match goint.index (inputs m) i with
  | Some inp => setInput i (SetEnabled b inp) m
  | None => m
  end.

Definition updateInputTitles (m : editModel) : option editModel :=
  custom ← isCustomConnectString m;
  let shouldDisableSSHArguments := negb custom in
  (* taking the address of a field out of range panics *)
  _ ← goint.index (inputs m) inputLogin;
  _ ← goint.index (inputs m) inputNetworkPort;
  _ ← goint.index (inputs m) inputIdentityFile;
  let inputsToProcess := [inputLogin; inputNetworkPort; inputIdentityFile] in
  custom' ← isCustomConnectString m;
  if custom' : bool then
    Some (fold_left (setEnabledAt shouldDisableSSHArguments)
                    inputsToProcess m)
  else Some m.

(** *** handleKeyboardEvent and Update *)

Definition handleKeyboardEvent (keyMsg : string) (m : editModel)
  : option (editModel * Cmd) :=
  let m := withTitle defaultTitle m in
  if key.Matches keyMsg (Save (keyMap_ m)) then
    save m
  else if key.Matches keyMsg (CopyInputValue (keyMap_ m)) then
    m ← handleCopyInputValueShortcut m;
    Some (m, CmdNil)
  else if key.Matches keyMsg (Down (keyMap_ m))
          || key.Matches keyMsg (Up (keyMap_ m)) then
    inputFocusChange (KeyMsg keyMsg) m
  else if key.Matches keyMsg (Discard (keyMap_ m)) then
    Some (m, TeaCmd MsgClose)
  else
    focusedInputProcessKeyEvent (KeyMsg keyMsg) m.

Definition Update (msg : Msg) (m : editModel) : option (editModel * Cmd) :=
  match msg with
  | WindowSizeMsg _ _ => Some (updateViewPort m, CmdNil)
  | KeyMsg keyMsg => handleKeyboardEvent keyMsg m
  | debouncedMessage wrappedMsg tag =>
      Some (handleDebouncedMessage wrappedMsg tag m)
  | HostSSHConfigLoaded _ =>
      m ← updateInputPlaceholders m;
      m ← updateInputTitles m;
      Some (m, CmdNil)
  | _ => Some (m, CmdNil)
  end.

End Form.

(** *** host_wrapper.go *)

Section Wrapper.

(** The constant [inputPassword] is used by host_wrapper.go and declared
    in none of the sources: it is a parameter. *)
Variable inputPassword : Z.

(** [hostModelWrapper] embeds a pointer to the host; the record holds the
    host the pointer leads to. *)
Record hostModelWrapper : Type := mkHostModelWrapper {
  Host : host.Host
}.

Definition wrap (h : host.Host) : hostModelWrapper :=
  mkHostModelWrapper h.

Definition getHostAttributeValueByIndex (inputType : Z)
    (m : hostModelWrapper) : string :=
  if inputType =? inputTitle then host.Title (Host m)
  else if inputType =? inputAddress then host.Address (Host m)
  else if inputType =? inputDescription then host.Description (Host m)
  else if inputType =? inputLogin then host.LoginName (Host m)
  else if inputType =? inputNetworkPort then host.RemotePort (Host m)
  else if inputType =? inputIdentityFile then host.IdentityFilePath (Host m)
  else if inputType =? inputPassword then host.Password (Host m)
  else "".

(** The method writes through the embedded pointer: the result is the
    wrapper of the updated host. *)
Definition setHostAttributeByIndex (inputType : Z) (value : string)
    (m : hostModelWrapper) : hostModelWrapper :=
  let h := Host m in
  if inputType =? inputTitle then
    mkHostModelWrapper
      (host.mkHost (host.ID h) value (host.Description h) (host.Address h)
         (host.RemotePort h) (host.LoginName h) (host.IdentityFilePath h)
         (host.Password h) (host.SSHClientConfig h))
  else if inputType =? inputAddress then
    mkHostModelWrapper
      (host.mkHost (host.ID h) (host.Title h) (host.Description h) value
         (host.RemotePort h) (host.LoginName h) (host.IdentityFilePath h)
         (host.Password h) (host.SSHClientConfig h))
  else if inputType =? inputDescription then
    mkHostModelWrapper
      (host.mkHost (host.ID h) (host.Title h) value (host.Address h)
         (host.RemotePort h) (host.LoginName h) (host.IdentityFilePath h)
         (host.Password h) (host.SSHClientConfig h))
  else if inputType =? inputLogin then
    mkHostModelWrapper
      (host.mkHost (host.ID h) (host.Title h) (host.Description h)
         (host.Address h) (host.RemotePort h) value (host.IdentityFilePath h)
         (host.Password h) (host.SSHClientConfig h))
  else if inputType =? inputNetworkPort then
    mkHostModelWrapper
      (host.mkHost (host.ID h) (host.Title h) (host.Description h)
         (host.Address h) value (host.LoginName h) (host.IdentityFilePath h)
         (host.Password h) (host.SSHClientConfig h))
  else if inputType =? inputIdentityFile then
    mkHostModelWrapper
      (host.mkHost (host.ID h) (host.Title h) (host.Description h)
         (host.Address h) (host.RemotePort h) (host.LoginName h) value
         (host.Password h) (host.SSHClientConfig h))
  else if inputType =? inputPassword then
    mkHostModelWrapper
      (host.mkHost (host.ID h) (host.Title h) (host.Description h)
         (host.Address h) (host.RemotePort h) (host.LoginName h)
         (host.IdentityFilePath h) value (host.SSHClientConfig h))
  else m.

Definition unwrap (m : hostModelWrapper) : host.Host := Host m.

End Wrapper.

End hostedit.

(* ===================================================================== *)
(** ** A concrete environment, to run the model *)
(* ===================================================================== *)

Module sample.

(** Options written one after the other, each with its flag. The real
    constructors are not among the sources; nothing is proved of them
    beyond what holds for every instance of [ssh.Commands]. *)
Definition render (o : ssh.Option) : string :=
  match o with
  | ssh.OptionPrivateKey v => if String.eqb v "" then "" else " -i " ++ v
  | ssh.OptionRemotePort v => if String.eqb v "" then "" else " -p " ++ v
  | ssh.OptionLoginName v => if String.eqb v "" then "" else " -l " ++ v
  | ssh.OptionAddress v => if String.eqb v "" then "" else " " ++ v
  | ssh.OptionReadConfig v => if String.eqb v "" then "" else " -G " ++ v
  end.

Definition command (base : string) (options : list ssh.Option) : string :=
  base ++ String.concat "" (map render options).

#[export] Instance commands : ssh.Commands :=
  {| ssh.ConnectCommand := command "ssh";
     ssh.LoadConfigCommand := command "ssh";
     ssh.CopyIDCommand := command "ssh-copy-id" |}.

(** A storage that keeps the saved records in a list and numbers a new
    record after the records it holds. *)
Definition store : Type := list model.Host.

Definition get (st : store) (id : Z) : option model.Host :=
  List.find (fun h => model.ID h =? id) st.

Definition put (st : store) (h : model.Host)
  : store * (model.Host * option string) :=
  let h' :=
    if model.ID h =? 0 then
      model.mkHost (goint.len st + 1) (model.Title h) (model.Description h)
        (model.Address h) (model.RemotePort h) (model.LoginName h)
        (model.PrivateKeyPath h)
    else h in
  (h' :: st, (h', None)).

#[export] Instance storage : HostStorage store :=
  {| storageGet := get; storageSave := put |}.

Definition bindings : keyMap :=
  {| Save := key.mkBinding ["ctrl+s"] false;
     CopyInputValue := key.mkBinding ["alt+enter"] false;
     Down := key.mkBinding ["down"; "tab"; "enter"] false;
     Up := key.mkBinding ["up"; "shift+tab"] false;
     Discard := key.mkBinding ["esc"] false |}.

(** The runes of a text of printable ASCII: one rune a byte, none
    replaced and none dropped. *)
Definition runes (s : string) : list Z :=
  map (fun c => Z.of_N (N_of_ascii c)) (strings.bytes s).

(** A field that appends the key it receives to its text, as far as its
    character limit allows, and drops the last rune on a backspace; a
    disabled field ignores the keys. *)
Definition type (msg : Msg) (i : input.Input) : input.Input :=
  match msg with
  | KeyMsg k =>
      if negb (input.enabled i) then i
      else if String.eqb k "backspace" then
        input.withValue (removelast (input.value i)) i
      else
        input.withValue
          (input.cut (input.CharLimit i) (input.value i ++ runes k)%list) i
  | _ => i
  end.

(** Decimal digits only, the value of at most [bitSize] bits. *)
Definition digit (c : ascii) : option Z :=
  let n := Z.of_N (N_of_ascii c) in
  if (48 <=? n) && (n <=? 57) then Some (n - 48) else None.

Fixpoint digits (acc : Z) (s : string) : option Z :=
  match s with
  | EmptyString => Some acc
  | String c s' =>
      match digit c with
      | Some d => digits (10 * acc + d) s'
      | None => None
      end
  end.

Definition parseDecimal (s : string) (base bitSize : Z) : option Z :=
  match s with
  | EmptyString => None
  | _ =>
      match digits 0 s with
      | Some n => if Z.log2 n <? bitSize then Some n else None
      | None => None
      end
  end.

#[export] Instance environment : Environment :=
  {| keys := bindings;
     StringEmpty := fun s => match s with EmptyString => true | _ => false end;
     ParseUint := parseDecimal;
     inputUpdate := type;
     inputSanitizer := runes |}.

Definition state : ApplicationState :=
  mkApplicationState 80 24 (ssh.mkConfig "" "" "22" "root").

End sample.

(* ===================================================================== *)
(** ** Vocabulary of the statements *)
(* ===================================================================== *)

(** A string made of white space runes only. *)
Inductive allSpace (ps : list (list ascii)) : list ascii -> Prop :=
| allSpace_nil : allSpace ps []
| allSpace_cons p s : In p ps -> allSpace ps s -> allSpace ps (p ++ s)%list.

(** A continuation byte of a UTF-8 encoding: [10xxxxxx]. *)
Definition continuation (c : ascii) : bool :=
  let n := Z.of_N (N_of_ascii c) in (128 <=? n) && (n <? 192).

(** A text that begins, or ends, with a white space rune. *)
Definition beginsWithSpace (s : list ascii) : Prop :=
  exists p r, In p strings.spaceRunes /\ s = (p ++ r)%list.

Definition endsWithSpace (s : list ascii) : Prop :=
  exists p r, In p strings.spaceRunes /\ s = (r ++ p)%list.

(** [core] is [s] with the surrounding white space trimmed: [s] is white
    space, then [core], then white space, and [core] neither begins nor
    ends with a white space rune. *)
Definition trimmedOf (s core : string) : Prop :=
  exists pre post,
    strings.bytes s = (pre ++ strings.bytes core ++ post)%list
    /\ allSpace strings.spaceRunes pre
    /\ allSpace strings.spaceRunes post
    /\ ~ beginsWithSpace (strings.bytes core)
    /\ ~ endsWithSpace (strings.bytes core).

(** The address mode in the words of the specification: an address is
    user-defined when, with the surrounding white space trimmed, it
    contains a space or an at sign. *)
Definition userDefined (s : string) : Prop :=
  exists core,
    trimmedOf s core
    /\ (In " "%char (strings.bytes core) \/ In "@"%char (strings.bytes core)).

(** The field of the record bound to the form field of ordinal [i]. *)
Definition fieldOf (i : Z) (h : model.Host) : string :=
  if i =? hostedit.inputTitle then model.Title h
  else if i =? hostedit.inputAddress then model.Address h
  else if i =? hostedit.inputDescription then model.Description h
  else if i =? hostedit.inputLogin then model.LoginName h
  else if i =? hostedit.inputNetworkPort then model.RemotePort h
  else if i =? hostedit.inputIdentityFile then model.PrivateKeyPath h
  else "".

(** The first [limit] runes of a text: the whole text when it has no
    more, and when the limit is not positive. *)
Definition limited (limit : Z) (runes : list Z) : list Z :=
  if 0 <? limit then take (Z.to_nat limit) runes else runes.

(** The text a field of character limit [limit] shows once the text [s]
    was set in it: the runes the widget makes of [s], the first [limit]
    of them. *)
Definition shownText {san : input.Sanitizer} (limit : Z) (s : string)
  : string :=
  utf8.String (limited limit (input.Sanitize s)).

(** The record as the fields of the form [New] builds show it. *)
Definition shown {san : input.Sanitizer} (h : model.Host) : model.Host :=
  model.mkHost (model.ID h)
    (shownText 0 (model.Title h))
    (shownText 512 (model.Description h))
    (shownText 128 (model.Address h))
    (shownText 5 (model.RemotePort h))
    (shownText 128 (model.LoginName h))
    (shownText 512 (model.PrivateKeyPath h)).

(** The first field, in index order, whose validator refuses its text:
    its index, the field and the error. *)
Fixpoint firstInvalid (l : list input.Input)
  : option (nat * input.Input * string) :=
  match l with
  | [] => None
  | inp :: l' =>
      match hostedit.validation inp with
      | Some err => Some (O, inp, err)
      | None =>
          match firstInvalid l' with
          | Some (k, x, e) => Some (S k, x, e)
          | None => None
          end
      end
  end.

(** The record after the texts of the fields [l], of ordinals [i], [i+1],
    ..., were written to the fields bound to them. *)
Fixpoint bindFields (i : Z) (l : list input.Input) (h : model.Host)
  : model.Host :=
  match l with
  | [] => h
  | inp :: l' => bindFields (i + 1) l' (hostedit.bindField i (input.Value inp) h)
  end.

(** The messages [msgs] handled one after the other, the commands they
    return left aside. *)
Fixpoint deliver {env : Environment} {Store : Type}
    {storage : HostStorage Store} (msgs : list Msg)
    (m : hostedit.editModel) : option hostedit.editModel :=
  match msgs with
  | [] => Some m
  | msg :: msgs' =>
      match hostedit.Update msg m with
      | Some (m', _) => deliver msgs' m'
      | None => None
      end
  end.

(** C1 in the words of the specification, at the form state [m]: when a
    field is refused, [save] names it in the title, returns no command and
    leaves the record as it was. *)
Definition saveAbortsUnmutated {env : Environment} {Store : Type}
    {storage : HostStorage Store} (m : hostedit.editModel) : Prop :=
  forall k inp err,
    firstInvalid (hostedit.inputs m) = Some (k, inp, err) ->
    exists m',
      hostedit.save m = Some (m', CmdNil)
      /\ hostedit.title m' = input.Label inp ++ " is not valid"
      /\ hostedit.host m' = hostedit.host m.

(** C6 in the words of the specification, at the form state [m] and the
    message [msg]: with the focus on the title of a new record whose title
    and address hold the same text, the address holds the new text of the
    title once the key is handled. *)
Definition titleKeyMirrors {env : Environment} {Store : Type}
    (msg : Msg) (m : hostedit.editModel (Store := Store)) : Prop :=
  forall t a,
    hostedit.focusedInput m = hostedit.inputTitle ->
    goint.index (hostedit.inputs m) hostedit.inputTitle = Some t ->
    goint.index (hostedit.inputs m) hostedit.inputAddress = Some a ->
    hostedit.isNewHost m = true ->
    input.Value t = input.Value a ->
    exists m' c t' a',
      hostedit.focusedInputProcessKeyEvent msg m = Some (m', c)
      /\ goint.index (hostedit.inputs m') hostedit.inputTitle = Some t'
      /\ goint.index (hostedit.inputs m') hostedit.inputAddress = Some a'
      /\ input.Value a' = input.Value t'.

(** The keys [ks] handled by [inputFocusChange] one after the other. *)
Fixpoint navigate {env : Environment} {Store : Type} (ks : list string)
    (m : hostedit.editModel (Store := Store)) : option hostedit.editModel :=
  match ks with
  | [] => Some m
  | k :: ks' =>
      match hostedit.inputFocusChange (KeyMsg k) m with
      | Some (m', _) => navigate ks' m'
      | None => None
      end
  end.

(** An up key and a down key of the form [m]: a key of the one binding
    that is not a key of the other. *)
Definition isUp {Store : Type} (k : string)
    (m : hostedit.editModel (Store := Store)) : Prop :=
  key.Matches k (Up (hostedit.keyMap_ m)) = true
  /\ key.Matches k (Down (hostedit.keyMap_ m)) = false.

Definition isDown {Store : Type} (k : string)
    (m : hostedit.editModel (Store := Store)) : Prop :=
  key.Matches k (Down (hostedit.keyMap_ m)) = true
  /\ key.Matches k (Up (hostedit.keyMap_ m)) = false.

(** A burst of schedule calls handled in sequence: each call reads the tag
    of the model into its envelope, as the key handler does, and the
    envelope is processed by [handleDebouncedMessage] before the next call.
    The result is the model after the burst and the envelopes, oldest
    first. *)
Fixpoint sequentialBurst {Store : Type} (ws : list Msg)
    (m : hostedit.editModel (Store := Store))
  : hostedit.editModel * list (Msg * Z) :=
  match ws with
  | [] => (m, [])
  | w :: ws' =>
      let tag := hostedit.debounceTag m in
      let m1 := fst (hostedit.handleDebouncedMessage w tag m) in
      let r := sequentialBurst ws' m1 in
      (fst r, (w, tag) :: snd r)
  end.

(** What the timers of the envelopes [envs] deliver when they fire on the
    model [m]. *)
Definition fire {Store : Type} (m : hostedit.editModel (Store := Store))
    (envs : list (Msg * Z)) : list (option Msg) :=
  map (fun e => hostedit.tickCallback (fst e) (snd e) m) envs.

(** The shape [New] gives the form: six fields, the focus on one of them,
    and a validator on the title and on the address. *)
Definition wellFormed {Store : Type}
    (m : hostedit.editModel (Store := Store)) : Prop :=
  length (hostedit.inputs m) = 6%nat
  /\ 0 <= hostedit.focusedInput m <= 5
  /\ (exists t, hostedit.inputs m !! 0%nat = Some t
                /\ is_Some (input.Validate t))
  /\ (exists a, hostedit.inputs m !! 1%nat = Some a
                /\ is_Some (input.Validate a)).

(** The ordinals the switches of host_wrapper.go know: the six form fields
    and the password. *)
Definition boundOrdinal (inputPassword i : Z) : Prop :=
  0 <= i <= 5 \/ i = inputPassword.

(** What of the form is neither a field, nor the focus, nor the key map. *)
Definition rest {Store : Type} (m : hostedit.editModel (Store := Store))
  : ApplicationState * model.Host * Store * bool * bool * string * Z :=
  (hostedit.appState m, hostedit.host m, hostedit.hostStorage m,
   hostedit.isNewHost m, hostedit.ready m, hostedit.title m,
   hostedit.debounceTag m).

(** The error a field shows once its validator, when it has one, has been
    run on its text. *)
Definition revalidated (inp : input.Input) : option string :=
  match input.Validate inp with
  | Some validate => validate (input.Value inp)
  | None => input.Err inp
  end.

(** The field of ordinal [j] once the navigation has gone over it with the
    focus on [focus]: validated again, and focused exactly when [j] is
    [focus]. *)
Definition refocused (focus : Z) (j : nat) (inp : input.Input)
  : input.Input :=
  input.withFocused (Z.of_nat j =? focus)
                    (input.withErr (revalidated inp) inp).

(* ===================================================================== *)
(** ** Runs of the form in the concrete environment *)
(* ===================================================================== *)

Module scenario.

Import hostedit.

Definition form : Type := editModel (Store := sample.store).

Definition keysOf (ks : list string) : list Msg := map KeyMsg ks.

(** The form of a new record after the messages [msgs]. *)
Definition run (msgs : list Msg) : option form :=
  New (env := sample.environment) (storage := sample.storage)
      None [] sample.state
  ≫= deliver (env := sample.environment) (storage := sample.storage) msgs.

Definition blank : form :=
  mkEditModel sample.state 0 model.zero [] [] true sample.bindings false
              defaultTitle 0.

Definition after (msgs : list Msg) : form := default blank (run msgs).

Definition loaded : Msg :=
  HostSSHConfigLoaded (ssh.mkConfig "10.0.0.5" "/k" "22" "root").

(** The form as [New] returns it: the title has the focus. *)
Definition start : form := after [].

(** The focus moved to the address. *)
Definition addressFocused : form := after (keysOf ["down"]).

(** [x] typed in the address, then the focus moved back to the title. *)
Definition diverged : form :=
  after (keysOf ["down"; "x"; "up"]).

(** [srv] typed in the title, which the address follows; then [x] typed in
    the network port. *)
Definition invalidPort : form :=
  after (keysOf ["s"; "r"; "v"; "down"; "down"; "down"; "down"; "x"]).

(** The same with the port [22]. *)
Definition validPort : form :=
  after (keysOf ["s"; "r"; "v"; "down"; "down"; "down"; "down"; "2"; "2"]).

(** [a@] typed in the address and the configuration loaded. *)
Definition customAddress : form :=
  after (keysOf ["down"; "a"; "@"] ++ [loaded]).

(** Then the at sign deleted: the address is [a]. *)
Definition structuredAgain : form :=
  after (keysOf ["down"; "a"; "@"] ++ [loaded] ++ keysOf ["backspace"]).

(** The letter [a] typed 128 times in the title, which the address
    follows: both hold 128 runes, the character limit of the address. *)
Definition longTitle : form := after (keysOf (repeat "a" 128)).

(** One more [a]: the title holds 129 runes. *)
Definition overlong : form := after (keysOf (repeat "a" 129)).

(** A storage that holds one record, whose port has six digits. *)
Definition stored : model.Host :=
  model.mkHost 1 "srv" "" "10.0.0.5" "123456" "root" "/k".

End scenario.
(* ===================================================================== *)
(** * Properties *)
(* ===================================================================== *)

(** ** Integers and indexing *)

Lemma wrap_inRange (z : Z) : goint.inRange z -> goint.wrap z = z.
Proof.
  unfold goint.inRange, goint.wrap. intros Hz.
  rewrite Z.mod_small; lia.
Qed.

Lemma index_Some {A} (l : list A) (i : Z) (x : A) :
  goint.index l i = Some x <-> 0 <= i /\ l !! Z.to_nat i = Some x.
Proof.
  unfold goint.index. destruct (Z.leb_spec 0 i); split.
  - intros H'; split; [lia | exact H'].
  - intros [_ H']; exact H'.
  - discriminate.
  - intros [H' _]; lia.
Qed.

Lemma index_of_nat {A} (l : list A) (n : nat) :
  goint.index l (Z.of_nat n) = l !! n.
Proof.
  unfold goint.index. destruct (Z.leb_spec 0 (Z.of_nat n)); [|lia].
  now rewrite Nat2Z.id.
Qed.

Lemma index_store_eq {A} (l : list A) (i : Z) (x : A) :
  0 <= i < goint.len l -> goint.index (goint.store l i x) i = Some x.
Proof.
  unfold goint.len. intros Hi. apply index_Some. split; [lia|].
  unfold goint.store. apply list_lookup_insert_eq. lia.
Qed.

Lemma index_store_ne {A} (l : list A) (i j : Z) (x : A) :
  0 <= i -> 0 <= j -> i <> j ->
  goint.index (goint.store l i x) j = goint.index l j.
Proof.
  intros Hi Hj Hne. unfold goint.index, goint.store.
  destruct (Z.leb_spec 0 j); [|lia].
  apply list_lookup_insert_ne. lia.
Qed.

Lemma length_store {A} (l : list A) (i : Z) (x : A) :
  length (goint.store l i x) = length l.
Proof. unfold goint.store. apply length_insert. Qed.

Lemma Zlength_store {A} (l : list A) (i : Z) (x : A) :
  goint.len (goint.store l i x) = goint.len l.
Proof. unfold goint.len. now rewrite length_store. Qed.

(** ** Package strings *)

Lemma length_append (a b : string) :
  String.length (a ++ b) = (String.length a + String.length b)%nat.
Proof. induction a as [|c a IH]; simpl; [reflexivity | now rewrite IH]. Qed.

Lemma prefix_char (c : ascii) (s : string) :
  String.prefix (String c "") s = true <->
  exists s', s = String c s'.
Proof.
  destruct s as [|d s]; simpl.
  - split; [discriminate | intros [s' H]; discriminate].
  - destruct (ascii_dec c d) as [->|Hne].
    + split; [eauto | intros _; now destruct s].
    + split; [discriminate | intros [s' H]; congruence].
Qed.

(** [Contains] with a one-byte needle is membership of that byte. *)
Lemma Contains_char (c : ascii) (s : string) :
  strings.Contains s (String c "") = true <-> In c (strings.bytes s).
Proof.
  induction s as [|d s IH].
  - simpl. split; [discriminate | tauto].
  - cbn [strings.Contains strings.bytes list_ascii_of_string In].
    rewrite orb_true_iff, IH, prefix_char. unfold strings.bytes. split.
    + intros [[s' H] | H]; [left; congruence | now right].
    + intros [-> | H]; [left; eauto | now right].
Qed.

Local Open Scope list_scope.

Lemma cutPrefix_Some (p s r : list ascii) :
  strings.cutPrefix p s = Some r -> s = p ++ r.
Proof.
  revert s; induction p as [|a p IH]; intros s; simpl.
  - congruence.
  - destruct s as [|b s]; [discriminate|].
    destruct (Ascii.eqb_spec a b) as [->|]; [|discriminate].
    intros H. now rewrite (IH _ H).
Qed.

Lemma cutAny_Some (ps : list (list ascii)) (s r : list ascii) :
  strings.cutAny ps s = Some r -> exists p, In p ps /\ s = p ++ r.
Proof.
  induction ps as [|p ps IH]; simpl; [discriminate|].
  destruct (strings.cutPrefix p s) as [r'|] eqn:E.
  - intros [= ->]. exists p. split; [now left | now apply cutPrefix_Some].
  - intros H. destruct (IH H) as (q & Hq & ->). exists q. split; [now right | easy].
Qed.

(** What [dropWhile] returns: the argument without a prefix of white space
    runes, and with no such rune left at its front. *)
Lemma dropWhile_spec (ps : list (list ascii)) :
  Forall (fun p => p <> []) ps ->
  forall fuel s, (length s <= fuel)%nat ->
    exists pre, s = pre ++ strings.dropWhile ps fuel s
                /\ allSpace ps pre
                /\ strings.cutAny ps (strings.dropWhile ps fuel s) = None.
Proof.
  intros Hne. induction fuel as [|fuel IH]; intros s Hlen.
  - destruct s; [|simpl in Hlen; lia]. exists []. simpl.
    split; [easy|]. split; [constructor|].
    clear -Hne. induction Hne as [|p ps Hp _ IH]; simpl; [easy|].
    destruct p; [easy|]. exact IH.
  - simpl. destruct (strings.cutAny ps s) as [r|] eqn:E.
    + destruct (cutAny_Some _ _ _ E) as (p & Hp & ->).
      assert (p <> []) as Hp' by exact (proj1 (List.Forall_forall _ _) Hne p Hp).
      destruct (IH r) as (pre & Hr & Hpre & Hcut).
      { rewrite length_app in Hlen. destruct p; [easy|]. simpl in Hlen. lia. }
      exists (p ++ pre). rewrite <- app_assoc, <- Hr.
      split; [easy|]. split; [now constructor | exact Hcut].
    + exists []. split; [easy|]. split; [constructor | exact E].
Qed.

Lemma spaceRunes_nonempty : Forall (fun p => p <> []) strings.spaceRunes.
Proof. repeat constructor; discriminate. Qed.

Lemma spaceRunes_rev_nonempty :
  Forall (fun p => p <> []) (map (@rev ascii) strings.spaceRunes).
Proof. repeat constructor; discriminate. Qed.

Lemma allSpace_rev (s : list ascii) :
  allSpace (map (@rev ascii) strings.spaceRunes) s ->
  allSpace strings.spaceRunes (rev s).
Proof.
  induction 1 as [|p s Hp _ IH]; [constructor|].
  rewrite List.rev_app_distr.
  apply in_map_iff in Hp as (q & <- & Hq). rewrite List.rev_involutive.
  clear -IH Hq. induction IH as [|p' s' Hp' _ IH']; simpl.
  - rewrite <- (app_nil_r q). constructor; [easy | constructor].
  - rewrite <- app_assoc. now constructor.
Qed.

(** [TrimSpace s] is [s] without a prefix and a suffix made of white space
    runes, and neither starts nor ends with one. *)
Lemma TrimSpace_spec (s : string) :
  let t := strings.bytes (strings.TrimSpace s) in
  exists pre post,
    strings.bytes s = pre ++ t ++ post
    /\ allSpace strings.spaceRunes pre
    /\ allSpace strings.spaceRunes post
    /\ strings.cutAny (map (@rev ascii) strings.spaceRunes) (rev t) = None
    /\ strings.cutAny strings.spaceRunes t = None.
Proof.
  cbv zeta.
  assert (strings.bytes (strings.TrimSpace s)
          = strings.trimRight (strings.trimLeft (strings.bytes s))) as ->
    by apply list_ascii_of_string_of_list_ascii.
  unfold strings.trimRight, strings.trimLeft.
  destruct (dropWhile_spec _ spaceRunes_nonempty
              (length (strings.bytes s)) (strings.bytes s) (le_n _))
    as (pre & Hs & Hpre & Hcut).
  set (l := strings.dropWhile strings.spaceRunes _ _) in *.
  destruct (dropWhile_spec _ spaceRunes_rev_nonempty
              (length (rev l)) (rev l) (le_n _))
    as (post & Hl & Hpost & Hcut').
  set (r := strings.dropWhile (map _ _) _ _) in *.
  exists pre, (rev post). repeat split.
  - rewrite <- List.rev_app_distr, <- Hl, List.rev_involutive. exact Hs.
  - exact Hpre.
  - now apply allSpace_rev.
  - now rewrite List.rev_involutive.
  - destruct (strings.cutAny strings.spaceRunes (rev r)) as [x|] eqn:E; [|easy].
    destruct (cutAny_Some _ _ _ E) as (p & Hp & Hr).
    assert (l = p ++ x ++ rev post) as Hl'.
    { rewrite <- (List.rev_involutive l), Hl, List.rev_app_distr, Hr.
      now rewrite <- app_assoc. }
    exfalso. rewrite Hl' in Hcut. clear -Hcut Hp.
    revert Hp Hcut. generalize strings.spaceRunes.
    induction l as [|q l IH]; simpl; [easy|].
    intros [-> | Hin].
    + assert (forall z, strings.cutPrefix p (p ++ z) = Some z) as ->; [|easy].
      clear. induction p as [|a p IH]; simpl; [easy|].
      intros z. now rewrite Ascii.eqb_refl.
    + destruct (strings.cutPrefix q _); [easy | auto].
Qed.

Lemma cutPrefix_app (p z : list ascii) : strings.cutPrefix p (p ++ z) = Some z.
Proof.
  induction p as [|a p IH]; simpl; [reflexivity|]. now rewrite Ascii.eqb_refl.
Qed.

(** [cutAny] finds nothing exactly when the text begins with none of the
    encodings. *)
Lemma cutAny_None (ps : list (list ascii)) (s : list ascii) :
  strings.cutAny ps s = None <-> ~ exists p r, In p ps /\ s = p ++ r.
Proof.
  split.
  - intros H (p & r & Hp & ->). induction ps as [|q ps IH]; [easy|].
    simpl in H. destruct Hp as [-> | Hp].
    + now rewrite cutPrefix_app in H.
    + destruct (strings.cutPrefix q (p ++ r)); [discriminate | auto].
  - intros H. destruct (strings.cutAny ps s) as [r|] eqn:E; [|reflexivity].
    exfalso. apply H. destruct (cutAny_Some _ _ _ E) as (p & Hp & ->). eauto.
Qed.

(** No encoding of a white space rune is the beginning of another: the
    rune at the front of a text is the one [cutAny] removes. The same on
    the reversed encodings, for the end of a text. *)
Lemma spaceRunes_cutAny (p z : list ascii) :
  In p strings.spaceRunes ->
  strings.cutAny strings.spaceRunes (p ++ z) = Some z.
Proof.
  intros Hp. unfold strings.spaceRunes in Hp. simpl in Hp.
  repeat (destruct Hp as [<-|Hp]; [reflexivity|]). contradiction.
Qed.

Lemma spaceRunes_rev_cutAny (p z : list ascii) :
  In p (map (@rev ascii) strings.spaceRunes) ->
  strings.cutAny (map (@rev ascii) strings.spaceRunes) (p ++ z) = Some z.
Proof.
  intros Hp. unfold strings.spaceRunes in Hp. simpl in Hp.
  repeat (destruct Hp as [<-|Hp]; [reflexivity|]). contradiction.
Qed.

(** The first byte of the encoding of a white space rune is no
    continuation byte, and every later byte is one. *)
Lemma spaceRunes_shape (p : list ascii) :
  In p strings.spaceRunes ->
  exists b tl, p = b :: tl
               /\ continuation b = false
               /\ Forall (fun c => continuation c = true) tl.
Proof.
  intros Hp. unfold strings.spaceRunes in Hp. simpl in Hp.
  repeat (destruct Hp as [<-|Hp];
          [eexists _, _; split; [reflexivity|];
           split; [reflexivity | repeat constructor]|]).
  contradiction.
Qed.

Lemma allSpace_app (ps : list (list ascii)) (s t : list ascii) :
  allSpace ps s -> allSpace ps t -> allSpace ps (s ++ t).
Proof.
  induction 1 as [|p s Hp _ IH]; intros Ht; [exact Ht|].
  rewrite <- app_assoc. constructor; auto.
Qed.

Lemma allSpace_rev_map (s : list ascii) :
  allSpace strings.spaceRunes s ->
  allSpace (map (@rev ascii) strings.spaceRunes) (rev s).
Proof.
  induction 1 as [|p s Hp _ IH]; [constructor|].
  rewrite List.rev_app_distr. apply allSpace_app; [exact IH|].
  rewrite <- (app_nil_r (rev p)). constructor; [|constructor].
  now apply in_map.
Qed.

(** [dropWhile] removes a white space prefix whole and stops where the
    text goes on with something else. *)
Lemma dropWhile_parts (ps : list (list ascii)) :
  (forall p z, In p ps -> strings.cutAny ps (p ++ z) = Some z) ->
  Forall (fun p => p <> []) ps ->
  forall pre, allSpace ps pre ->
  forall rest fuel,
    strings.cutAny ps rest = None ->
    (length (pre ++ rest) <= fuel)%nat ->
    strings.dropWhile ps fuel (pre ++ rest) = rest.
Proof.
  intros Hcut Hne pre Hpre. induction Hpre as [|p s Hp _ IH];
    intros rest fuel Hrest Hlen.
  - simpl. destruct fuel; simpl; [reflexivity | now rewrite Hrest].
  - assert (p <> []) as Hp' by exact (proj1 (List.Forall_forall _ _) Hne p Hp).
    rewrite <- app_assoc in *. rewrite length_app in Hlen.
    destruct fuel as [|fuel]; [destruct p; [easy | simpl in Hlen; lia]|].
    simpl. rewrite (Hcut _ _ Hp). apply IH; [exact Hrest|].
    destruct p; [easy | simpl in Hlen; lia].
Qed.

Lemma continuation_prefix (tl core post r : list ascii) :
  Forall (fun c => continuation c = true) tl ->
  (forall c s, post = c :: s -> continuation c = false) ->
  core ++ post = tl ++ r ->
  exists l, core = tl ++ l.
Proof.
  intros Htl Hpost. revert core.
  induction Htl as [|d tl Hd _ IH]; intros core E; [now exists core|].
  destruct core as [|c core]; simpl in E.
  - rewrite (Hpost _ _ E) in Hd. discriminate Hd.
  - injection E as -> E. destruct (IH _ E) as (l & ->). now exists l.
Qed.

(** A text that does not begin with a white space rune does not begin
    with one when white space follows it: the bytes that would complete a
    rune are continuation bytes, and no white space begins with one. *)
Lemma cutAny_app_space (core post : list ascii) :
  core <> [] ->
  strings.cutAny strings.spaceRunes core = None ->
  allSpace strings.spaceRunes post ->
  strings.cutAny strings.spaceRunes (core ++ post) = None.
Proof.
  intros Hne Hc Hpost.
  destruct (strings.cutAny strings.spaceRunes (core ++ post)) as [r|] eqn:E;
    [|reflexivity].
  exfalso. destruct (cutAny_Some _ _ _ E) as (q & Hq & Hq').
  destruct (spaceRunes_shape _ Hq) as (b & tl & -> & _ & Htl).
  destruct core as [|c core]; [easy|].
  simpl in Hq'. injection Hq' as -> Hq'.
  destruct (continuation_prefix tl core post r Htl) as (l & ->);
    [| exact Hq' |].
  - intros c s ->. inversion Hpost as [|p s' Hp _ Hs].
    destruct (spaceRunes_shape _ Hp) as (b' & tl' & -> & Hb' & _).
    simpl in Hs. now injection Hs as ->.
  - change (b :: tl ++ l) with ((b :: tl) ++ l) in Hc.
    now rewrite spaceRunes_cutAny in Hc.
Qed.

(** [TrimSpace] of white space, a text that neither begins nor ends with
    a white space rune, and white space, is that text. *)
Lemma TrimSpace_parts (pre core post : list ascii) :
  allSpace strings.spaceRunes pre ->
  allSpace strings.spaceRunes post ->
  strings.cutAny strings.spaceRunes core = None ->
  strings.cutAny (map (@rev ascii) strings.spaceRunes) (rev core) = None ->
  strings.TrimSpace (string_of_list_ascii (pre ++ core ++ post))
  = string_of_list_ascii core.
Proof.
  intros Hpre Hpost Hb He. unfold strings.TrimSpace, strings.bytes.
  rewrite list_ascii_of_string_of_list_ascii. f_equal.
  destruct core as [|c core].
  - simpl. unfold strings.trimLeft.
    rewrite <- (app_nil_r (pre ++ post)) at 2.
    rewrite (dropWhile_parts _ spaceRunes_cutAny spaceRunes_nonempty
               (pre ++ post) (allSpace_app _ _ _ Hpre Hpost) []);
      [reflexivity | reflexivity | now rewrite app_nil_r].
  - unfold strings.trimLeft.
    rewrite (dropWhile_parts _ spaceRunes_cutAny spaceRunes_nonempty
               pre Hpre ((c :: core) ++ post));
      [| now apply cutAny_app_space | reflexivity].
    unfold strings.trimRight. rewrite List.rev_app_distr.
    rewrite (dropWhile_parts _ spaceRunes_rev_cutAny spaceRunes_rev_nonempty
               (rev post) (allSpace_rev_map _ Hpost) (rev (c :: core)));
      [apply List.rev_involutive | exact He | reflexivity].
Qed.

(** [TrimSpace s] is the one text that is [s] with the surrounding white
    space trimmed. *)
Lemma TrimSpace_trimmedOf (s core : string) :
  trimmedOf s core <-> strings.TrimSpace s = core.
Proof.
  split.
  - intros (pre & post & Hs & Hpre & Hpost & Hb & He).
    rewrite <- (string_of_list_ascii_of_string s),
      <- (string_of_list_ascii_of_string core).
    change (list_ascii_of_string s) with (strings.bytes s). rewrite Hs.
    apply TrimSpace_parts; [exact Hpre | exact Hpost | |].
    + apply cutAny_None. exact Hb.
    + apply cutAny_None. intros (p & r & Hp & E). apply He.
      apply in_map_iff in Hp as (q & <- & Hq). exists q, (rev r).
      split; [exact Hq|].
      change (list_ascii_of_string core) with (strings.bytes core) in E.
      rewrite <- (List.rev_involutive (strings.bytes core)), E,
        List.rev_app_distr, List.rev_involutive. reflexivity.
  - intros <-.
    destruct (TrimSpace_spec s) as (pre & post & Hs & Hpre & Hpost & He & Hb).
    exists pre, post. split; [exact Hs|]. split; [exact Hpre|].
    split; [exact Hpost|]. split.
    + now apply cutAny_None.
    + intros (p & r & Hp & E).
      apply (proj1 (cutAny_None _ _) He). exists (rev p), (rev r).
      split; [now apply in_map|]. now rewrite E, List.rev_app_distr.
Qed.

Local Open Scope string_scope.
Local Open Scope Z_scope.

(** ** The text input widget *)

Section InputProperties.
Context {san : input.Sanitizer}.

(** The cut of the widget gives the first [limit] runes. *)
Lemma cut_limited (limit : Z) (runes : list Z) :
  input.cut limit runes = limited limit runes.
Proof.
  unfold input.cut, limited, goint.len.
  destruct (Z.ltb_spec 0 limit); cbn [andb]; [|reflexivity].
  destruct (Z.ltb_spec limit (Z.of_nat (length runes))); [reflexivity|].
  rewrite take_ge by lia. reflexivity.
Qed.

(** A text that is within the limit, and a text in a field with no limit,
    is kept whole. *)
Lemma limited_fits (limit : Z) (runes : list Z) :
  limit <= 0 \/ goint.len runes <= limit -> limited limit runes = runes.
Proof.
  unfold limited, goint.len. intros H.
  destruct (Z.ltb_spec 0 limit); [|reflexivity].
  rewrite take_ge by lia. reflexivity.
Qed.

(** The field [copyInputValueFromTo] leaves at the destination: the text
    it was handed as the widget stores it in a field of that limit, the
    verdict of the validator on the text as it was handed, the cursor at
    the end of what was handed or of what was stored, whichever is less;
    everything else as it was. *)
Lemma copied_field (v : string) (dst : input.Input)
    (validate : string -> option string) :
  let dst' :=
    input.withErr (validate v)
      (input.withValidate (Some validate)
         (input.SetCursor (Z.of_nat (String.length v))
            (input.SetValue v (input.withValidate None dst)))) in
  input.value dst' = limited (input.CharLimit dst) (input.Sanitize v)
  /\ input.Err dst' = validate v
  /\ input.Validate dst' = Some validate
  /\ input.cursor dst' =
       Z.min (goint.len (input.value dst')) (Z.of_nat (String.length v))
  /\ input.Label dst' = input.Label dst
  /\ input.Placeholder dst' = input.Placeholder dst
  /\ input.CharLimit dst' = input.CharLimit dst
  /\ input.enabled dst' = input.enabled dst
  /\ input.focused dst' = input.focused dst.
Proof.
  cbv zeta. rewrite <- cut_limited. unfold input.SetValue.
  cbn [input.Validate input.withValidate]. cbv zeta.
  match goal with |- context [if ?c then _ else _] => destruct c end;
    cbn; repeat split; f_equal; lia.
Qed.

End InputProperties.

(** ** The host model *)

Section HostProperties.
Context {cmds : ssh.Commands}.

(** The detector in terms of the trimmed address. *)
Lemma IsUserDefinedSSHCommand_trimmed (h : host.Host) :
  let trimmed := strings.bytes (strings.TrimSpace (host.Address h)) in
  host.IsUserDefinedSSHCommand h = true <->
  In " "%char trimmed \/ In "@"%char trimmed.
Proof.
  unfold host.IsUserDefinedSSHCommand. cbv zeta.
  now rewrite orb_true_iff, !Contains_char.
Qed.

Lemma IsUserDefinedSSHCommand_spec (h : host.Host) :
  host.IsUserDefinedSSHCommand h = true <-> userDefined (host.Address h).
Proof.
  rewrite IsUserDefinedSSHCommand_trimmed. cbv zeta. unfold userDefined. split.
  - intros H. exists (strings.TrimSpace (host.Address h)).
    split; [now apply TrimSpace_trimmedOf | exact H].
  - intros (core & Hc & H). apply TrimSpace_trimmedOf in Hc. now rewrite Hc.
Qed.

(** On a user-defined address the connect command is the SSH invocation of
    the raw address, whatever the password is. *)
Lemma CmdSSHConnect_user_defined (h : host.Host) :
  host.IsUserDefinedSSHCommand h = true ->
  host.CmdSSHConnect h = ssh.ConnectCommand [ssh.OptionAddress (host.Address h)].
Proof. unfold host.CmdSSHConnect. now intros ->. Qed.

(** On a structured address a password wraps the SSH invocation. *)
Lemma CmdSSHConnect_structured_password (h : host.Host) :
  host.IsUserDefinedSSHCommand h = false ->
  host.Password h <> "" ->
  host.CmdSSHConnect h =
    "sshpass -p '" ++ host.Password h ++ "' "
    ++ ssh.ConnectCommand
         [ ssh.OptionPrivateKey (host.IdentityFilePath h);
           ssh.OptionRemotePort (host.RemotePort h);
           ssh.OptionLoginName (host.LoginName h);
           ssh.OptionAddress (host.Address h) ].
Proof.
  unfold host.CmdSSHConnect, host.sshpass. intros -> Hp.
  destruct (String.eqb_spec (host.Password h) ""); [contradiction | reflexivity].
Qed.

(** C2, at its failing input. The host has the user-defined address
    [root@10.0.0.5] and the password [x]: the connect command is the bare
    SSH invocation of the address, the same string as for the host without
    a password, and so differs from that invocation wrapped by the
    password helper. *)
Theorem CmdSSHConnect_user_defined_drops_password :
  let h := host.NewHost 1 "srv" "" "root@10.0.0.5" "" "" "" "x" in
  let h0 := host.NewHost 1 "srv" "" "root@10.0.0.5" "" "" "" "" in
  host.Password h <> ""
  /\ host.CmdSSHConnect h = ssh.ConnectCommand [ssh.OptionAddress "root@10.0.0.5"]
  /\ host.CmdSSHConnect h = host.CmdSSHConnect h0
  /\ host.CmdSSHConnect h <>
       host.sshpass "x" (ssh.ConnectCommand [ssh.OptionAddress "root@10.0.0.5"]).
Proof.
  cbv zeta. split; [discriminate|].
  assert (host.CmdSSHConnect (host.NewHost 1 "srv" "" "root@10.0.0.5" "" "" "" "x")
          = ssh.ConnectCommand [ssh.OptionAddress "root@10.0.0.5"]) as E
    by (now apply CmdSSHConnect_user_defined).
  split; [exact E|]. split.
  - rewrite E. symmetry. now apply CmdSSHConnect_user_defined.
  - rewrite E. unfold host.sshpass. intros H.
    apply (f_equal String.length) in H. simpl in H.
    rewrite !length_append in H. simpl in H. lia.
Qed.

(** C9. The copy-identity builder goes through the resolved configuration
    unconditionally: it faults exactly on the hosts whose configuration
    pointer is nil, and on every other host it returns the command built
    from the four fields of the snapshot. *)
Theorem CmdSSHCopyID_needs_config (h : host.Host) :
  (host.CmdSSHCopyID h = None <-> host.SSHClientConfig h = None)
  /\ (forall c, host.SSHClientConfig h = Some c ->
        host.CmdSSHCopyID h =
          Some (ssh.CopyIDCommand
                  [ ssh.OptionLoginName (ssh.User c);
                    ssh.OptionRemotePort (ssh.Port c);
                    ssh.OptionPrivateKey (ssh.IdentityFile c);
                    ssh.OptionAddress (ssh.Hostname c) ])).
Proof.
  unfold host.CmdSSHCopyID. destruct (host.SSHClientConfig h) as [c|].
  - split; [split; discriminate | now intros ? [= <-]].
  - split; [tauto | discriminate].
Qed.

End HostProperties.

(** C10. [Clone] returns a record with the seven text fields of its
    receiver, the identity zero and no resolved configuration. The receiver
    is only read: the method is a function of its value. *)
Theorem Clone_spec (h : host.Host) :
  let c := host.Clone h in
  host.Title c = host.Title h
  /\ host.Description c = host.Description h
  /\ host.Address c = host.Address h
  /\ host.LoginName c = host.LoginName h
  /\ host.IdentityFilePath c = host.IdentityFilePath h
  /\ host.RemotePort c = host.RemotePort h
  /\ host.Password c = host.Password h
  /\ host.ID c = 0
  /\ host.SSHClientConfig c = None.
Proof. cbv zeta. unfold host.Clone. simpl. tauto. Qed.

(** C9 on a host without a resolved configuration and on one with it. *)
Lemma CmdSSHCopyID_needs_config_witness :
  host.CmdSSHCopyID (cmds := sample.commands)
      (host.NewHost 1 "srv" "" "10.0.0.5" "" "" "" "") = None
  /\ host.CmdSSHCopyID (cmds := sample.commands)
       (host.mkHost 1 "srv" "" "10.0.0.5" "" "" "" ""
          (Some (ssh.mkConfig "10.0.0.5" "/k" "22" "root")))
     = Some "ssh-copy-id -l root -p 22 -i /k 10.0.0.5".
Proof.
  split.
  - apply (CmdSSHCopyID_needs_config (cmds := sample.commands)). reflexivity.
  - apply (proj2 (CmdSSHCopyID_needs_config (cmds := sample.commands) _)
             (ssh.mkConfig "10.0.0.5" "/k" "22" "root")).
    reflexivity.
Defined.

(** ** The edit form: construction *)

Section ConstructionProperties.
Context {env : Environment} {Store : Type} {storage : HostStorage Store}.

Import hostedit.

(** [New] returns a form of six fields with the focus on the title; the
    title and the address carry a validator; the record counts as new
    exactly when the storage does not know the id. *)
Lemma New_spec (itemID : option Z) (st : Store) (state : ApplicationState) :
  exists m,
    New itemID st state = Some m
    /\ length (inputs m) = 6%nat
    /\ focusedInput m = inputTitle
    /\ debounceTag m = 0
    /\ (isNewHost m = true <-> storageGet st (default 0 itemID) = None)
    /\ (exists t, goint.index (inputs m) inputTitle = Some t
                  /\ is_Some (input.Validate t))
    /\ (exists a, goint.index (inputs m) inputAddress = Some a
                  /\ is_Some (input.Validate a)).
Proof.
  unfold New. cbv zeta. eexists. split; [reflexivity|].
  cbn [inputs focusedInput debounceTag isNewHost setInput withInputs].
  split; [reflexivity|]. split; [reflexivity|]. split; [reflexivity|].
  split; [apply bool_decide_eq_true|].
  split; eexists; (split; [reflexivity | eexists; reflexivity]).
Qed.

End ConstructionProperties.

(** ** The edit form: save *)

Section SaveProperties.
Context {env : Environment} {Store : Type} {storage : HostStorage Store}.

Import hostedit.
Local Abbreviation form := (@editModel Store).

Lemma fieldOf_bindField (i j : Z) (v : string) (h : model.Host) :
  fieldOf j (bindField i v h) =
    if (i =? j) && (0 <=? i) && (i <? 6) then v else fieldOf j h.
Proof.
  unfold fieldOf, bindField, inputTitle, inputAddress, inputDescription,
    inputLogin, inputNetworkPort, inputIdentityFile.
  repeat match goal with
         | |- context [Z.eqb ?a ?b] => destruct (Z.eqb_spec a b); try lia
         | |- context [Z.leb ?a ?b] => destruct (Z.leb_spec a b); try lia
         | |- context [Z.ltb ?a ?b] => destruct (Z.ltb_spec a b); try lia
         end; reflexivity.
Qed.

Lemma ID_bindField (i : Z) (v : string) (h : model.Host) :
  model.ID (bindField i v h) = model.ID h.
Proof.
  unfold bindField.
  repeat match goal with
         | |- context [?a =? ?b] => destruct (a =? b); simpl
         end; reflexivity.
Qed.

Lemma ID_bindFields (l : list input.Input) (i : Z) (h : model.Host) :
  model.ID (bindFields i l h) = model.ID h.
Proof.
  revert i h; induction l as [|inp l IH]; intros i h; simpl; [easy|].
  now rewrite IH, ID_bindField.
Qed.

(** Fields bound to ordinals outside [i .. i + length l - 1] are kept. *)
Lemma fieldOf_bindFields_frame (l : list input.Input) (i j : Z) (h : model.Host) :
  j < i \/ i + goint.len l <= j ->
  fieldOf j (bindFields i l h) = fieldOf j h.
Proof.
  revert i h; induction l as [|inp l IH]; intros i h Hj; simpl; [easy|].
  unfold goint.len in *. simpl length in Hj.
  rewrite IH by lia. rewrite fieldOf_bindField.
  destruct (Z.eqb_spec i j); [lia | reflexivity].
Qed.

(** The field bound to an ordinal in range holds the text of its field. *)
Lemma fieldOf_bindFields_hit (l : list input.Input) (i : Z) (h : model.Host)
    (n : nat) (x : input.Input) :
  0 <= i -> l !! n = Some x -> i + Z.of_nat n < 6 ->
  fieldOf (i + Z.of_nat n) (bindFields i l h) = input.Value x.
Proof.
  revert i h n; induction l as [|inp l IH]; intros i h n Hi Hn Hlt; [easy|].
  destruct n as [|n]; cbn [bindFields].
  - injection Hn as ->. change (Z.of_nat 0) with 0 in *. rewrite Z.add_0_r in *.
    rewrite fieldOf_bindFields_frame by lia. rewrite fieldOf_bindField.
    rewrite Z.eqb_refl. destruct (Z.leb_spec 0 i); [|lia].
    destruct (Z.ltb_spec i 6); [reflexivity | lia].
  - replace (i + Z.of_nat (S n)) with ((i + 1) + Z.of_nat n) in * by lia.
    apply IH; [lia | exact Hn | lia].
Qed.

Lemma firstInvalid_None (l : list input.Input) :
  firstInvalid l = None <-> Forall (fun inp => validation inp = None) l.
Proof.
  induction l as [|inp l IH]; simpl.
  - split; [constructor | reflexivity].
  - destruct (validation inp) as [err|] eqn:E.
    + split; [discriminate | intros H; inversion H; congruence].
    + destruct (firstInvalid l) as [[[k x] e]|].
      * split; [discriminate|]. intros H; inversion H; subst.
        now apply IH in H3.
      * split; [|reflexivity]. intros _. constructor; [exact E | now apply IH].
Qed.

(** Where [firstInvalid] points: the field at that index, refused with
    that error, and every field before it accepted. *)
Lemma firstInvalid_Some (l : list input.Input) (k : nat) (x : input.Input)
    (e : string) :
  firstInvalid l = Some (k, x, e) ->
  l !! k = Some x /\ validation x = Some e
  /\ Forall (fun inp => validation inp = None) (take k l).
Proof.
  revert k; induction l as [|inp l IH]; intros k; simpl; [discriminate|].
  destruct (validation inp) as [err|] eqn:E.
  - intros [= <- <- <-]. simpl. repeat split; [exact E | constructor].
  - destruct (firstInvalid l) as [[[k' x'] e']|]; [|discriminate].
    intros [= <- <- <-]. destruct (IH k' eq_refl) as (H1 & H2 & H3).
    simpl. repeat split; [exact H1 | exact H2 | now constructor].
Qed.

Lemma withHost_id (m : form) : withHost (host m) m = m.
Proof. now destruct m. Qed.

(** The loop of [save], run over the fields [rest] that follow the fields
    [pre]: it stops at the first invalid field of [rest], having written
    the fields before it to the record. *)
Lemma saveLoop_spec (rest pre : list input.Input) (m : form) :
  inputs m = (pre ++ rest)%list ->
  saveLoop (length rest) (goint.len pre) m =
    match firstInvalid rest with
    | None => Some (withHost (bindFields (goint.len pre) rest (host m)) m, false)
    | Some (k, inp, err) =>
        let m := withHost (bindFields (goint.len pre) (take k rest) (host m)) m in
        let m := setInput (goint.len pre + Z.of_nat k) (input.withErr (Some err) inp) m in
        Some (withTitle (input.Label inp ++ " is not valid") m, true)
    end.
Proof.
  revert pre m; induction rest as [|inp rest IH]; intros pre m Hm.
  - simpl. now rewrite withHost_id.
  - cbn [length saveLoop firstInvalid].
    assert (goint.index (inputs m) (goint.len pre) = Some inp) as ->.
    { unfold goint.len. rewrite index_of_nat, Hm.
      now rewrite lookup_app_r, Nat.sub_diag by lia. }
    cbn [mbind option_bind].
    destruct (validation inp) as [err|] eqn:E.
    + cbv zeta. cbn [take bindFields]. now rewrite withHost_id, Z.add_0_r.
    + specialize (IH (pre ++ [inp])%list
                     (withHost (bindField (goint.len pre) (input.Value inp) (host m)) m)).
      assert (goint.len (pre ++ [inp]) = goint.len pre + 1) as Hlen.
      { unfold goint.len. rewrite length_app. simpl. lia. }
      rewrite Hlen in IH. rewrite IH by (simpl; now rewrite <- app_assoc).
      destruct (firstInvalid rest) as [[[k x] e]|]; cbn [take bindFields].
      * cbv zeta. simpl host.
        replace (goint.len pre + 1 + Z.of_nat k)
          with (goint.len pre + Z.of_nat (S k)) by lia.
        reflexivity.
      * reflexivity.
Qed.

(** C1, amended. When a field is refused, [save] names the first such field
    in the title, returns no command and does not call the storage; the
    identity and every field of the record bound to the refused field or
    to a later one are as before, the fields bound to the earlier fields
    hold the texts of those fields, and when the refused field is the
    first one the record is as before. *)
Theorem save_invalid_field (m : form) (k : nat) (inp : input.Input)
    (err : string) :
  firstInvalid (inputs m) = Some (k, inp, err) ->
  exists m',
    save m = Some (m', CmdNil)
    /\ title m' = input.Label inp ++ " is not valid"
    /\ hostStorage m' = hostStorage m
    /\ model.ID (host m') = model.ID (host m)
    /\ (forall j, Z.of_nat k <= j -> fieldOf j (host m') = fieldOf j (host m))
    /\ (forall j x, (j < k)%nat -> (j < 6)%nat -> inputs m !! j = Some x ->
          fieldOf (Z.of_nat j) (host m') = input.Value x)
    /\ (k = 0%nat -> host m' = host m).
Proof.
  intros Hk. unfold save.
  pose proof (saveLoop_spec (inputs m) [] m eq_refl) as Hloop.
  rewrite Hk in Hloop. change (goint.len []) with 0 in Hloop.
  rewrite Hloop. cbn [mbind option_bind]. cbv zeta.
  eexists. split; [reflexivity|]. simpl.
  split; [reflexivity|]. split; [reflexivity|].
  split; [apply ID_bindFields|]. split; [|split].
  - intros j Hj. apply fieldOf_bindFields_frame. right.
    unfold goint.len. rewrite length_take. lia.
  - intros j x Hjk Hj6 Hx.
    apply (fieldOf_bindFields_hit _ 0 _ j x); [lia | | lia].
    now rewrite lookup_take_lt.
  - now intros ->.
Qed.

(** C8. When every validator accepts the text of its field, [save] writes
    the six texts to the fields of the record bound to them, hands that
    record to the storage and keeps the storage it answers with, and
    returns the sequence close-form, select-the-record with the identity
    the storage answered, refresh-the-list. *)
Theorem save_valid (m : form) :
  length (inputs m) = 6%nat ->
  Forall (fun inp => validation inp = None) (inputs m) ->
  let h := bindFields 0 (inputs m) (host m) in
  let answer := storageSave (hostStorage m) h in
  let cmd :=
    Sequence [ TeaCmd MsgClose;
               TeaCmd (HostListSelectItem (model.ID (fst (snd answer))));
               TeaCmd MsgRefreshRepo ] in
  save m = Some (withHostStorage (fst answer) (withHost h m), cmd)
  /\ (forall j x, inputs m !! j = Some x ->
        fieldOf (Z.of_nat j) h = input.Value x)
  /\ model.ID h = model.ID (host m)
  /\ emitted cmd =
       Some [ MsgClose;
              HostListSelectItem (model.ID (fst (snd answer)));
              MsgRefreshRepo ].
Proof.
  intros Hlen Hall. cbv zeta. split; [|split; [|split]].
  - unfold save.
    pose proof (saveLoop_spec (inputs m) [] m eq_refl) as Hloop.
    apply firstInvalid_None in Hall. rewrite Hall in Hloop.
    change (goint.len []) with 0 in Hloop. rewrite Hloop.
    cbn [mbind option_bind]. simpl hostStorage. simpl host.
    destruct (storageSave (hostStorage m) (bindFields 0 (inputs m) (host m)))
      as [st [h e]]. reflexivity.
  - intros j x Hx.
    apply (fieldOf_bindFields_hit _ 0 _ j x); [lia | exact Hx |].
    apply lookup_lt_Some in Hx. lia.
  - apply ID_bindFields.
  - reflexivity.
Qed.

End SaveProperties.

(** ** The edit form: moving the focus *)

Section FocusProperties.
Context {env : Environment} {Store : Type}.

Import hostedit.
Local Abbreviation form := (@editModel Store).

(** The loop of [inputFocusChange] goes through every field without a
    fault and keeps the focus index and the number of fields. *)
Lemma focusLoop_spec (n : nat) :
  forall (i : Z) (m : form) (cmds : list Cmd),
    0 <= i -> (Z.to_nat i + n)%nat = length (inputs m) ->
    exists m' cmds',
      focusLoop n i m cmds = Some (m', cmds')
      /\ focusedInput m' = focusedInput m
      /\ length (inputs m') = length (inputs m).
Proof.
  induction n as [|n IH]; intros i m cmds Hi Hn.
  - simpl. eauto.
  - cbn [focusLoop].
    destruct (lookup_lt_is_Some_2 (inputs m) (Z.to_nat i)) as [inp Hinp]; [lia|].
    assert (goint.index (inputs m) i = Some inp) as ->
      by (apply index_Some; split; [lia | exact Hinp]).
    cbn [mbind option_bind]. cbv zeta.
    destruct (i =? focusedInput m); cbn [input.Focus].
    + edestruct (IH (i + 1)) as (m' & cmds' & H1 & H2 & H3);
        [| | rewrite H1; exists m', cmds'; split; [reflexivity|];
             split; [exact H2 | rewrite H3; simpl; apply length_store]];
        [lia | simpl; rewrite length_store; lia].
    + edestruct (IH (i + 1)) as (m' & cmds' & H1 & H2 & H3);
        [| | rewrite H1; exists m', cmds'; split; [reflexivity|];
             split; [exact H2 | rewrite H3; simpl; apply length_store]];
        [lia | simpl; rewrite length_store; lia].
Qed.

Lemma moved_in_range (f n : Z) (up down : bool) :
  0 <= f <= n - 1 ->
  0 <= (if up && (0 <? f) then f - 1
        else if down && (f <? n - 1) then f + 1 else f) <= n - 1.
Proof.
  intros Hf.
  destruct up, down, (Z.ltb_spec 0 f), (Z.ltb_spec f (n - 1)); simpl; lia.
Qed.

(** One key handled by [inputFocusChange]: where the focus goes. *)
Lemma inputFocusChange_spec (k : string) (m : form) :
  goint.inRange (goint.len (inputs m)) ->
  0 <= focusedInput m <= goint.len (inputs m) - 1 ->
  exists m' c,
    inputFocusChange (KeyMsg k) m = Some (m', c)
    /\ length (inputs m') = length (inputs m)
    /\ focusedInput m' =
         if key.Matches k (Up (keyMap_ m)) && (0 <? focusedInput m)
         then focusedInput m - 1
         else if key.Matches k (Down (keyMap_ m))
                 && (focusedInput m <? goint.len (inputs m) - 1)
         then focusedInput m + 1
         else focusedInput m.
Proof.
  intros Hlen Hf. unfold inputFocusChange. cbv zeta.
  assert (0 <= goint.len (inputs m)) as Hlen0 by (unfold goint.len; lia).
  unfold goint.sub, goint.add.
  rewrite (wrap_inRange (goint.len (inputs m) - 1))
    by (unfold goint.inRange in *; lia).
  destruct (key.Matches k (Up (keyMap_ m)) && (0 <? focusedInput m)) eqn:Eup.
  - apply andb_true_iff in Eup as [_ Hpos]. apply Z.ltb_lt in Hpos.
    rewrite wrap_inRange by (unfold goint.inRange in *; lia).
    edestruct (focusLoop_spec (length (inputs m)) 0
                 (withFocusedInput (focusedInput m - 1) m) [])
      as (m' & cmds' & H1 & H2 & H3); [lia | reflexivity |].
    simpl inputs. rewrite H1. cbn [mbind option_bind].
    exists m', (Batch cmds'). repeat split; [exact H3 | exact H2].
  - destruct (key.Matches k (Down (keyMap_ m))
              && (focusedInput m <? goint.len (inputs m) - 1)) eqn:Edown.
    + apply andb_true_iff in Edown as [_ Hlt]. apply Z.ltb_lt in Hlt.
      rewrite wrap_inRange by (unfold goint.inRange in *; lia).
      edestruct (focusLoop_spec (length (inputs m)) 0
                   (withFocusedInput (focusedInput m + 1) m) [])
        as (m' & cmds' & H1 & H2 & H3); [lia | reflexivity |].
      simpl inputs. rewrite H1. cbn [mbind option_bind].
      exists m', (Batch cmds'). repeat split; [exact H3 | exact H2].
    + exists m, CmdNil. repeat split.
Qed.

(** C7. From a focus index within the fields, every sequence of keys
    handled by the navigation leaves the index within the fields; an up
    key at the first field and a down key at the last one leave it as it
    is, and every other up or down key moves it by one. *)
Theorem focus_stays_in_range (m : form) :
  goint.inRange (goint.len (inputs m)) ->
  0 <= focusedInput m <= goint.len (inputs m) - 1 ->
  (forall ks, exists m',
      navigate ks m = Some m'
      /\ goint.len (inputs m') = goint.len (inputs m)
      /\ 0 <= focusedInput m' <= goint.len (inputs m') - 1)
  /\ (forall k, isUp k m -> exists m' c,
        inputFocusChange (KeyMsg k) m = Some (m', c)
        /\ focusedInput m' =
             if focusedInput m =? 0 then focusedInput m
             else focusedInput m - 1)
  /\ (forall k, isDown k m -> exists m' c,
        inputFocusChange (KeyMsg k) m = Some (m', c)
        /\ focusedInput m' =
             if focusedInput m =? goint.len (inputs m) - 1 then focusedInput m
             else focusedInput m + 1).
Proof.
  intros Hlen Hf. split; [|split].
  - intros ks. revert m Hlen Hf.
    induction ks as [|k ks IH]; intros m Hlen Hf.
    + exists m. simpl. auto.
    + destruct (inputFocusChange_spec k m Hlen Hf) as (m1 & c & H1 & H2 & H3).
      assert (goint.len (inputs m1) = goint.len (inputs m)) as Hl
        by (unfold goint.len; now rewrite H2).
      destruct (IH m1) as (m' & Hn & Hl' & Hf').
      * now rewrite Hl.
      * rewrite Hl, H3. now apply moved_in_range.
      * exists m'. cbn [navigate]. rewrite H1.
        split; [exact Hn|]. split; [congruence | exact Hf'].
  - intros k [Hup Hdown].
    destruct (inputFocusChange_spec k m Hlen Hf) as (m1 & c & H1 & _ & H3).
    exists m1, c. split; [exact H1|]. rewrite H3, Hup, Hdown. simpl.
    destruct (Z.eqb_spec (focusedInput m) 0) as [->|Hne]; [reflexivity|].
    destruct (Z.ltb_spec 0 (focusedInput m)); [reflexivity | lia].
  - intros k [Hdown Hup].
    destruct (inputFocusChange_spec k m Hlen Hf) as (m1 & c & H1 & _ & H3).
    exists m1, c. split; [exact H1|]. rewrite H3, Hup, Hdown. simpl.
    destruct (Z.eqb_spec (focusedInput m) (goint.len (inputs m) - 1)) as [->|Hne].
    + now rewrite Z.ltb_irrefl.
    + destruct (Z.ltb_spec (focusedInput m) (goint.len (inputs m) - 1));
        [reflexivity | lia].
Qed.

End FocusProperties.

(** ** The edit form: keys typed into the focused field *)

Section KeyProperties.
Context {env : Environment} {Store : Type}.

Import hostedit.
Local Abbreviation form := (@editModel Store).

Lemma index_lt {A} (l : list A) (i : Z) (x : A) :
  goint.index l i = Some x -> 0 <= i < goint.len l.
Proof.
  intros H. apply index_Some in H as [Hi H]. apply lookup_lt_Some in H.
  unfold goint.len. lia.
Qed.

(** C6. A key typed while the title has the focus: when the record is new
    and the title and the address hold the same text before the key, the
    address holds after it the new text of the title as the widget stores
    it in the address field: the runes the widget makes of that text, the
    first ones up to the character limit of the address field. It is the
    new text of the title itself when these runes are the ones the title
    holds and they are within the limit. When the two texts differ before
    the key, the address field is as it was. In both cases the title is
    what the widget makes of it. *)
Theorem title_key_mirrors_into_address (msg : Msg) (m : form)
    (t a : input.Input) :
  focusedInput m = inputTitle ->
  goint.index (inputs m) inputTitle = Some t ->
  goint.index (inputs m) inputAddress = Some a ->
  (isNewHost m = true -> input.Value t = input.Value a ->
   is_Some (input.Validate a) ->
   exists m' c a',
     focusedInputProcessKeyEvent msg m = Some (m', c)
     /\ goint.index (inputs m') inputTitle = Some (inputUpdate msg t)
     /\ goint.index (inputs m') inputAddress = Some a'
     /\ input.value a' =
          limited (input.CharLimit a)
            (input.Sanitize (input.Value (inputUpdate msg t)))
     /\ (input.Sanitize (input.Value (inputUpdate msg t))
         = input.value (inputUpdate msg t) ->
         input.CharLimit a <= 0
         \/ goint.len (input.value (inputUpdate msg t)) <= input.CharLimit a ->
         input.Value a' = input.Value (inputUpdate msg t)))
  /\ (input.Value t <> input.Value a ->
      exists m' c,
        focusedInputProcessKeyEvent msg m = Some (m', c)
        /\ goint.index (inputs m') inputTitle = Some (inputUpdate msg t)
        /\ goint.index (inputs m') inputAddress = Some a).
Proof.
  intros Hf Ht Ha.
  pose proof (index_lt _ _ _ Ht) as Ht'. pose proof (index_lt _ _ _ Ha) as Ha'.
  unfold inputTitle, inputAddress in *.
  assert (goint.index (goint.store (inputs m) 0 (inputUpdate msg t)) 0
          = Some (inputUpdate msg t)) as Ht1 by now apply index_store_eq.
  assert (goint.index (goint.store (inputs m) 0 (inputUpdate msg t)) 1
          = Some a) as Ha1 by (rewrite index_store_ne; [exact Ha | lia..]).
  split.
  - intros Hnew Heq [validate Hv].
    unfold focusedInputProcessKeyEvent, inputTitle, inputAddress.
    rewrite Hf, Ht, Ha, Hnew. cbn [mbind option_bind Z.eqb andb].
    apply String.eqb_eq in Heq. rewrite Heq. cbv zeta.
    unfold copyInputValueFromTo, setInput. cbn [inputs withInputs].
    rewrite Ht1, Ha1. cbn [mbind option_bind]. rewrite Hv.
    cbn [mbind option_bind focusedInput withInputs]. rewrite Hf. cbn [Z.eqb].
    eexists _, _, _. split; [reflexivity|]. cbn [inputs withInputs].
    destruct (copied_field (input.Value (inputUpdate msg t)) a validate)
      as (Hval & _).
    split; [|split; [|split]].
    + rewrite index_store_ne; [exact Ht1 | lia..].
    + apply index_store_eq. rewrite !Zlength_store. exact Ha'.
    + exact Hval.
    + intros Hsan Hfit. unfold input.Value at 1. rewrite Hval, Hsan.
      now rewrite limited_fits.
  - intros Hne.
    unfold focusedInputProcessKeyEvent, inputTitle, inputAddress.
    rewrite Hf, Ht, Ha. cbn [mbind option_bind Z.eqb].
    apply String.eqb_neq in Hne. rewrite Hne, andb_false_r.
    unfold setInput. cbn [mbind option_bind focusedInput withInputs].
    rewrite Hf. cbn [Z.eqb].
    eexists _, _. split; [reflexivity|]. cbn [inputs withInputs].
    split; assumption.
Qed.

End KeyProperties.

(** ** The edit form: the address mode and the fields it governs *)

(** A form of six fields, taken apart. *)
Ltac six_fields m H :=
  destruct m as [st f h sto ins new km rd ti tag];
  cbn [hostedit.inputs] in *;
  destruct ins as [|i0 [|i1 [|i2 [|i3 [|i4 [|i5 [|]]]]]]]; try discriminate H.

Section AddressModeProperties.
Context {env : Environment} {Store : Type} {storage : HostStorage Store}.

Import hostedit.
Local Abbreviation form := (@editModel Store).

(** C5. The address mode detector of the host model answers user-defined
    exactly for the addresses that, with the surrounding white space
    trimmed, contain a space or an at sign, and structured for the others;
    the detector of the form computes the same function of the text of the
    address field. The trimmed address is the text between the leading
    and the trailing white space runes of the address ([trimmedOf]),
    whatever function computes it. *)
Theorem address_mode_detector (s : string) :
  (forall h : host.Host, host.Address h = s ->
     (host.IsUserDefinedSSHCommand h = true <-> userDefined s)
     /\ (host.IsUserDefinedSSHCommand h = false <-> ~ userDefined s))
  /\ (forall (m : form) (a : input.Input) (h : host.Host),
        goint.index (inputs m) inputAddress = Some a ->
        input.Value a = s ->
        host.Address h = s ->
        isCustomConnectString m = Some (host.IsUserDefinedSSHCommand h)).
Proof.
  split.
  - intros h <-. pose proof (IsUserDefinedSSHCommand_spec h) as Hspec.
    split; [exact Hspec|].
    destruct (host.IsUserDefinedSSHCommand h).
    + split; [discriminate | intros Hn; exfalso; apply Hn, Hspec; reflexivity].
    + split; [intros _ Hu; apply Hspec in Hu; discriminate | reflexivity].
  - intros m a h Ha Hv Hh. unfold isCustomConnectString.
    rewrite Ha. cbn [mbind option_bind]. cbv zeta.
    unfold host.IsUserDefinedSSHCommand. now rewrite Hv, Hh.
Qed.

(** On a user-defined address the notification switches the login, the
    port and the identity file fields off. *)
Lemma config_loaded_custom (c : ssh.Config) (m : form) :
  length (inputs m) = 6%nat ->
  isCustomConnectString m = Some true ->
  exists m',
    Update (HostSSHConfigLoaded c) m = Some (m', CmdNil)
    /\ map input.Value (inputs m') = map input.Value (inputs m)
    /\ map input.enabled (drop 3 (inputs m')) = [false; false; false]
    /\ map input.enabled (take 3 (inputs m')) =
       map input.enabled (take 3 (inputs m)).
Proof.
  intros Hlen Hc. six_fields m Hlen.
  unfold isCustomConnectString, inputAddress, goint.index in Hc.
  change (Z.to_nat 1) with 1%nat in Hc.
  cbn -[strings.TrimSpace strings.Contains] in Hc. injection Hc as Hc.
  unfold Update, updateInputPlaceholders, updateInputTitles, setPlaceholder,
    isCustomConnectString, setEnabledAt, setInput, inputAddress, inputLogin,
    inputNetworkPort, inputIdentityFile.
  unfold goint.index, goint.store. cbn [Z.leb Z.compare].
  change (Z.to_nat 1) with 1%nat. change (Z.to_nat 3) with 3%nat.
  change (Z.to_nat 4) with 4%nat. change (Z.to_nat 5) with 5%nat.
  repeat (cbn -[strings.TrimSpace strings.Contains]; rewrite ?Hc).
  eexists. repeat split.
Qed.

(** On a structured address the notification leaves the enabled state of
    every field as it finds it. *)
Lemma config_loaded_structured (c : ssh.Config) (m : form) :
  length (inputs m) = 6%nat ->
  isCustomConnectString m = Some false ->
  exists m',
    Update (HostSSHConfigLoaded c) m = Some (m', CmdNil)
    /\ map input.Value (inputs m') = map input.Value (inputs m)
    /\ map input.enabled (inputs m') = map input.enabled (inputs m).
Proof.
  intros Hlen Hc. six_fields m Hlen.
  unfold isCustomConnectString, inputAddress, goint.index in Hc.
  change (Z.to_nat 1) with 1%nat in Hc.
  cbn -[strings.TrimSpace strings.Contains] in Hc. injection Hc as Hc.
  unfold Update, updateInputPlaceholders, updateInputTitles, setPlaceholder,
    isCustomConnectString, setEnabledAt, setInput, inputAddress, inputLogin,
    inputNetworkPort, inputIdentityFile.
  unfold goint.index, goint.store. cbn [Z.leb Z.compare].
  change (Z.to_nat 1) with 1%nat. change (Z.to_nat 3) with 3%nat.
  change (Z.to_nat 4) with 4%nat. change (Z.to_nat 5) with 5%nat.
  repeat (cbn -[strings.TrimSpace strings.Contains]; rewrite ?Hc).
  eexists. repeat split.
Qed.

End AddressModeProperties.

(** ** The edit form: debounced messages *)

Section DebounceProperties.
Context {env : Environment} {Store : Type}.

Import hostedit.
Local Abbreviation form := (@editModel Store).

(** A key that changes the text of the focused address field returns the
    command that emits the envelope, tagged with the tag of the model as
    it is; the tag itself is not touched. *)
Lemma address_key_schedules (msg : Msg) (m : form) (a : input.Input) :
  focusedInput m = inputAddress ->
  goint.index (inputs m) inputAddress = Some a ->
  input.Value (inputUpdate msg a) <> input.Value a ->
  focusedInputProcessKeyEvent msg m =
    Some (setInput inputAddress (inputUpdate msg a) m,
          TeaCmd (debouncedMessage
                    (RunProcessLoadSSHConfig (input.Value (inputUpdate msg a)))
                    (debounceTag m))).
Proof.
  intros Hf Ha Hne. unfold focusedInputProcessKeyEvent.
  rewrite Hf, Ha. unfold inputAddress, inputTitle in *.
  cbn [mbind option_bind Z.eqb]. unfold setInput.
  cbn [focusedInput inputs withInputs]. rewrite Hf. cbn [Z.eqb].
  rewrite index_store_eq by (eapply index_lt; exact Ha).
  cbn [mbind option_bind]. cbv zeta.
  destruct (String.eqb_spec (input.Value a) (input.Value (inputUpdate msg a)))
    as [E|_]; [congruence | reflexivity].
Qed.

Lemma sequentialBurst_tag (ws : list Msg) :
  forall m : form,
    goint.inRange (debounceTag m) ->
    goint.inRange (debounceTag m + goint.len ws) ->
    debounceTag (fst (sequentialBurst ws m)) = debounceTag m + goint.len ws
    /\ length (snd (sequentialBurst ws m)) = length ws
    /\ Forall (fun e => debounceTag m <= snd e < debounceTag m + goint.len ws)
              (snd (sequentialBurst ws m)).
Proof.
  unfold goint.len, goint.inRange.
  induction ws as [|w ws IH]; intros m Hm Hn.
  - simpl. split; [lia | split; [reflexivity | constructor]].
  - cbn [sequentialBurst length fst snd handleDebouncedMessage] in *.
    destruct (IH (withDebounceTag (goint.add (debounceTag m) 1) m))
      as (H1 & H2 & H3);
      cbn [debounceTag withDebounceTag]; unfold goint.add;
      try (rewrite wrap_inRange by (unfold goint.inRange; lia); lia).
    unfold goint.add in *. cbn [debounceTag withDebounceTag] in *.
    rewrite wrap_inRange in * by (unfold goint.inRange; lia).
    split; [lia|]. split; [now rewrite H2|]. constructor; [simpl; lia|].
    eapply Forall_impl; [exact H3|]. simpl. intros e He. lia.
Qed.

Lemma sequentialBurst_app (ws : list Msg) (w : Msg) :
  forall m : form,
    sequentialBurst (ws ++ [w]) m =
      let r := sequentialBurst ws m in
      (fst (handleDebouncedMessage w (debounceTag (fst r)) (fst r)),
       (snd r ++ [(w, debounceTag (fst r))])%list).
Proof.
  induction ws as [|x ws IH]; intros m; [reflexivity|].
  cbn [app sequentialBurst]. cbv zeta. rewrite IH. reflexivity.
Qed.

(** X19. In a burst handled in sequence, whatever the order in which the
    timers fire after it, the envelope of the last call delivers its
    message and the envelopes of the earlier calls deliver nothing. *)
Lemma sequentialBurst_delivers_last (ws : list Msg) (w : Msg) (m : form) :
  goint.inRange (debounceTag m) ->
  goint.inRange (debounceTag m + goint.len (ws ++ [w])) ->
  let r := sequentialBurst (ws ++ [w]) m in
  fire (fst r) (snd r) = (repeat None (length ws) ++ [Some w])%list.
Proof.
  intros Hm Hn. cbv zeta. rewrite sequentialBurst_app. cbv zeta.
  assert (goint.len (ws ++ [w]) = goint.len ws + 1) as Hlen
    by (unfold goint.len; rewrite length_app; simpl; lia).
  rewrite Hlen in Hn.
  assert (0 <= goint.len ws) as Hpos by (unfold goint.len; lia).
  destruct (sequentialBurst_tag ws m Hm) as (Htag & Hlength & Htags).
  { unfold goint.inRange in *. lia. }
  cbn [fst snd handleDebouncedMessage]. unfold fire, tickCallback.
  cbn [debounceTag withDebounceTag]. unfold goint.add, goint.sub.
  rewrite Htag.
  rewrite (wrap_inRange (debounceTag m + goint.len ws + 1))
    by (unfold goint.inRange in *; lia).
  replace (debounceTag m + goint.len ws + 1 - 1)
    with (debounceTag m + goint.len ws) by lia.
  rewrite wrap_inRange by (unfold goint.inRange in *; lia).
  rewrite map_app. cbn [map fst snd]. rewrite Z.eqb_refl. f_equal.
  rewrite <- Hlength. clear -Htags. revert Htags.
  generalize (debounceTag m + goint.len ws) as T.
  generalize (snd (sequentialBurst ws m)) as l.
  induction l as [|e l IH]; intros T Hall; [reflexivity|].
  inversion Hall as [|? ? He Hl]; subst. cbn [map length repeat].
  destruct (Z.eqb_spec (snd e) T); [lia|]. f_equal. now apply IH.
Qed.

(** Two schedule calls handled before the envelope of the first is
    processed carry the same tag; once both envelopes are processed,
    neither timer delivers its message. *)
Lemma two_calls_before_processing (w1 w2 : Msg) (m : form) :
  goint.inRange (debounceTag m) ->
  goint.inRange (debounceTag m + 2) ->
  let tag := debounceTag m in
  let m1 := fst (handleDebouncedMessage w1 tag m) in
  let m2 := fst (handleDebouncedMessage w2 tag m1) in
  fire m2 [(w1, tag); (w2, tag)] = [None; None].
Proof.
  intros Hm Hn. cbv zeta. unfold fire, tickCallback, handleDebouncedMessage.
  cbn [map fst snd debounceTag withDebounceTag]. unfold goint.add, goint.sub.
  unfold goint.inRange in *.
  rewrite (wrap_inRange (debounceTag m + 1)) by (unfold goint.inRange; lia).
  rewrite (wrap_inRange (debounceTag m + 1 + 1)) by (unfold goint.inRange; lia).
  rewrite wrap_inRange by (unfold goint.inRange; lia).
  destruct (Z.eqb_spec (debounceTag m) (debounceTag m + 1 + 1 - 1)); [lia|].
  reflexivity.
Qed.

End DebounceProperties.

(** ** The edit form: what every message keeps *)

Section InvariantProperties.
Context {env : Environment} {Store : Type} {storage : HostStorage Store}.

(** The widget keeps the validator of a field it updates. *)
Hypothesis inputUpdate_Validate :
  forall msg i, input.Validate (inputUpdate msg i) = input.Validate i.

Import hostedit.
Local Abbreviation form := (@editModel Store).

Lemma validators_store (l : list input.Input) (i : Z) (x y : input.Input) :
  goint.index l i = Some x ->
  input.Validate y = input.Validate x ->
  map input.Validate (goint.store l i y) = map input.Validate l.
Proof.
  intros Hx Hy. apply index_Some in Hx as [_ Hx]. unfold goint.store.
  change (map input.Validate) with (fmap (M := list) input.Validate).
  rewrite list_fmap_insert. apply list_insert_id.
  now rewrite list_lookup_fmap, Hx, Hy.
Qed.

(** A form with the validators and the focus of a well-formed one is
    well-formed. *)
Lemma wellFormed_validators (m m' : form) :
  wellFormed m ->
  map input.Validate (inputs m') = map input.Validate (inputs m) ->
  0 <= focusedInput m' <= 5 ->
  wellFormed m'.
Proof.
  intros (Hlen & _ & (t & Ht & Hvt) & (a & Ha & Hva)) Hv Hf.
  assert (forall n x, inputs m !! n = Some x -> is_Some (input.Validate x) ->
            exists y, inputs m' !! n = Some y /\ is_Some (input.Validate y))
    as Hat.
  { intros n x Hx Hvx.
    assert (map input.Validate (inputs m') !! n = Some (input.Validate x)) as H
      by (rewrite Hv; change (map input.Validate) with (fmap (M := list) input.Validate);
          now rewrite list_lookup_fmap, Hx).
    change (map input.Validate) with (fmap (M := list) input.Validate) in H.
    rewrite list_lookup_fmap in H.
    destruct (inputs m' !! n) as [y|]; [|discriminate].
    exists y. split; [reflexivity|]. injection H as ->. exact Hvx. }
  split; [|split; [exact Hf | split; eauto]].
  rewrite <- Hlen, <- (length_map input.Validate (inputs m')), Hv.
  apply length_map.
Qed.

Lemma saveLoop_validators (n : nat) :
  forall (i : Z) (m m' : form) (b : bool),
    saveLoop n i m = Some (m', b) ->
    map input.Validate (inputs m') = map input.Validate (inputs m)
    /\ focusedInput m' = focusedInput m.
Proof.
  induction n as [|n IH]; intros i m m' b; cbn [saveLoop].
  - intros [= <- <-]. split; reflexivity.
  - destruct (goint.index (inputs m) i) as [inp|] eqn:Hinp; [|discriminate].
    cbn [mbind option_bind].
    destruct (validation inp) as [err|].
    + intros [= <- <-]. cbn [inputs focusedInput withTitle setInput withInputs].
      split; [|reflexivity].
      now apply (validators_store _ _ inp).
    + intros H. now apply IH in H.
Qed.

(** [save] returns on every form. *)
Lemma save_total (m : form) :
  exists m' c,
    save m = Some (m', c)
    /\ map input.Validate (inputs m') = map input.Validate (inputs m)
    /\ focusedInput m' = focusedInput m.
Proof.
  unfold save.
  pose proof (saveLoop_spec (inputs m) [] m eq_refl) as Hloop.
  change (goint.len []) with 0 in Hloop.
  destruct (saveLoop (length (inputs m)) 0 m) as [[m1 b]|] eqn:E.
  - apply saveLoop_validators in E as [Hv Hf].
    cbn [mbind option_bind]. destruct b.
    + eauto.
    + destruct (storageSave (hostStorage m1) (host m1)) as [st [h e]].
      eexists _, _. split; [reflexivity|]. split; [exact Hv | exact Hf].
  - destruct (firstInvalid (inputs m)) as [[[k x] e]|]; discriminate Hloop.
Qed.

Lemma copyInputValueFromTo_spec (src dst : Z) (m : form) (x y : input.Input) :
  goint.index (inputs m) src = Some x ->
  goint.index (inputs m) dst = Some y ->
  is_Some (input.Validate y) ->
  exists m',
    copyInputValueFromTo src dst m = Some m'
    /\ map input.Validate (inputs m') = map input.Validate (inputs m)
    /\ focusedInput m' = focusedInput m.
Proof.
  intros Hx Hy [v Hv]. unfold copyInputValueFromTo.
  rewrite Hx, Hy. cbn [mbind option_bind]. rewrite Hv.
  cbn [mbind option_bind]. eexists. split; [reflexivity|].
  cbn [inputs focusedInput setInput withInputs]. split; [|reflexivity].
  apply (validators_store _ _ y); [exact Hy|]. now rewrite Hv.
Qed.

Lemma focusLoop_validators (n : nat) :
  forall (i : Z) (m m' : form) (cmds cmds' : list Cmd),
    focusLoop n i m cmds = Some (m', cmds') ->
    map input.Validate (inputs m') = map input.Validate (inputs m).
Proof.
  induction n as [|n IH]; intros i m m' cmds cmds'; cbn [focusLoop].
  - now intros [= <- <-].
  - destruct (goint.index (inputs m) i) as [inp|] eqn:Hinp; [|discriminate].
    cbn [mbind option_bind]. cbv zeta.
    assert (forall z : input.Input,
              input.Validate z = input.Validate inp ->
              map input.Validate (goint.store (inputs m) i z)
              = map input.Validate (inputs m)) as Hstore
      by (intros z Hz; now apply (validators_store _ _ inp)).
    destruct (i =? focusedInput m); cbn [input.Focus]; intros H;
      apply IH in H; rewrite H; cbn [inputs setInput withInputs withKeyMap];
      apply Hstore; destruct inp as [? ? ? ? [v|] ? ? ? ?]; reflexivity.
Qed.

Lemma wellFormed_index (m : form) (i : Z) :
  wellFormed m -> 0 <= i <= 5 ->
  exists x, goint.index (inputs m) i = Some x.
Proof.
  intros (Hlen & _) Hi.
  destruct (lookup_lt_is_Some_2 (inputs m) (Z.to_nat i)) as [x Hx]; [lia|].
  exists x. apply index_Some. split; [lia | exact Hx].
Qed.

Lemma wellFormed_title_address (m : form) :
  wellFormed m ->
  exists t a,
    goint.index (inputs m) inputTitle = Some t
    /\ goint.index (inputs m) inputAddress = Some a
    /\ is_Some (input.Validate t) /\ is_Some (input.Validate a).
Proof.
  intros (_ & _ & (t & Ht & Hvt) & (a & Ha & Hva)).
  exists t, a. repeat split; assumption.
Qed.

Lemma inputFocusChange_validators (msg : Msg) (m m' : form) (c : Cmd) :
  inputFocusChange msg m = Some (m', c) ->
  map input.Validate (inputs m') = map input.Validate (inputs m).
Proof.
  unfold inputFocusChange. destruct msg; try discriminate. cbv zeta.
  destruct (_ && _).
  - cbn [inputs withFocusedInput].
    destruct (focusLoop _ _ _ _) as [[m1 cmds]|] eqn:E; [|discriminate].
    cbn [mbind option_bind]. intros [= <- <-].
    now apply focusLoop_validators in E.
  - destruct (_ && _).
    + cbn [inputs withFocusedInput].
      destruct (focusLoop _ _ _ _) as [[m1 cmds]|] eqn:E; [|discriminate].
      cbn [mbind option_bind]. intros [= <- <-].
      now apply focusLoop_validators in E.
    + now intros [= <- <-].
Qed.

Lemma inputFocusChange_wellFormed (k : string) (m : form) :
  wellFormed m ->
  exists m' c, inputFocusChange (KeyMsg k) m = Some (m', c) /\ wellFormed m'.
Proof.
  intros Hwf. pose proof Hwf as (Hlen & Hf & _).
  assert (goint.len (inputs m) = 6) as Hlen'
    by (unfold goint.len; rewrite Hlen; reflexivity).
  destruct (inputFocusChange_spec k m) as (m' & c & H1 & _ & H3).
  { rewrite Hlen'. unfold goint.inRange. lia. }
  { rewrite Hlen'. lia. }
  exists m', c. split; [exact H1|].
  apply (wellFormed_validators m); [exact Hwf | | ].
  - now apply inputFocusChange_validators in H1.
  - rewrite H3, Hlen'. apply (moved_in_range _ 6). lia.
Qed.

Lemma focusedInputProcessKeyEvent_wellFormed (msg : Msg) (m : form) :
  wellFormed m ->
  exists m' c,
    focusedInputProcessKeyEvent msg m = Some (m', c)
    /\ map input.Validate (inputs m') = map input.Validate (inputs m)
    /\ focusedInput m' = focusedInput m.
Proof.
  intros Hwf.
  destruct (wellFormed_title_address m Hwf) as (t & a & Ht & Ha & _ & _).
  destruct (wellFormed_index m (focusedInput m) Hwf) as [x Hx];
    [apply Hwf|].
  set (m1 := setInput (focusedInput m) (inputUpdate msg x) m).
  assert (map input.Validate (inputs m1) = map input.Validate (inputs m)) as Hv1
    by (apply (validators_store _ _ x); [exact Hx | apply inputUpdate_Validate]).
  assert (wellFormed m1) as Hwf1
    by (apply (wellFormed_validators m); [exact Hwf | exact Hv1 | apply Hwf]).
  destruct (wellFormed_title_address m1 Hwf1) as (t1 & a1 & Ht1 & Ha1 & _ & Hva1).
  assert (exists m2,
            (if isNewHost m && String.eqb (input.Value t) (input.Value a)
             then copyInputValueFromTo inputTitle inputAddress m1
             else Some m1) = Some m2
            /\ map input.Validate (inputs m2) = map input.Validate (inputs m)
            /\ focusedInput m2 = focusedInput m) as (m2 & H2 & Hv2 & Hf2).
  { destruct (isNewHost m && _).
    - destruct (copyInputValueFromTo_spec inputTitle inputAddress m1 t1 a1)
        as (m2 & H2 & Hv2 & Hf2); try assumption.
      exists m2. split; [exact H2|]. split; [congruence | exact Hf2].
    - exists m1. split; [reflexivity|]. split; [exact Hv1 | reflexivity]. }
  assert (wellFormed m2) as Hwf2
    by (apply (wellFormed_validators m); [exact Hwf | exact Hv2 | rewrite Hf2; apply Hwf]).
  destruct (wellFormed_title_address m2 Hwf2) as (t2 & a2 & _ & Ha2 & _ & _).
  unfold focusedInputProcessKeyEvent. rewrite Hx. cbn [mbind option_bind].
  destruct (Z.eqb_spec (focusedInput m) inputTitle) as [Hfoc|Hfoc].
  - rewrite Ht, Ha. cbn [mbind option_bind]. cbv zeta. fold m1.
    rewrite H2. cbn [mbind option_bind]. rewrite Hf2, Hfoc.
    change (inputTitle =? inputAddress) with false. cbv iota.
    eexists _, _. split; [reflexivity|]. split; [exact Hv2 | congruence].
  - cbn [mbind option_bind]. cbv zeta. fold m1.
    change (focusedInput m1) with (focusedInput m).
    destruct (focusedInput m =? inputAddress).
    + rewrite Ha1. cbn [mbind option_bind].
      destruct (negb _); eexists _, _;
        (split; [reflexivity|]; split; [exact Hv1 | reflexivity]).
    + eexists _, _. split; [reflexivity|]. split; [exact Hv1 | reflexivity].
Qed.

Lemma config_loaded_wellFormed (c : ssh.Config) (m : form) :
  wellFormed m ->
  exists m',
    Update (HostSSHConfigLoaded c) m = Some (m', CmdNil)
    /\ map input.Validate (inputs m') = map input.Validate (inputs m)
    /\ focusedInput m' = focusedInput m.
Proof.
  intros (Hlen & _). six_fields m Hlen.
  unfold Update, updateInputPlaceholders, updateInputTitles, setPlaceholder,
    isCustomConnectString, setEnabledAt, setInput, inputAddress, inputLogin,
    inputNetworkPort, inputIdentityFile.
  unfold goint.index, goint.store. cbn [Z.leb Z.compare].
  change (Z.to_nat 1) with 1%nat. change (Z.to_nat 3) with 3%nat.
  change (Z.to_nat 4) with 4%nat. change (Z.to_nat 5) with 5%nat.
  cbn -[strings.TrimSpace strings.Contains].
  destruct (strings.Contains _ _ || strings.Contains _ _);
    cbn -[strings.TrimSpace strings.Contains]; eexists; repeat split.
Qed.

Lemma handleCopyInputValueShortcut_wellFormed (m : form) :
  wellFormed m ->
  exists m',
    handleCopyInputValueShortcut m = Some m'
    /\ map input.Validate (inputs m') = map input.Validate (inputs m)
    /\ focusedInput m' = focusedInput m.
Proof.
  intros Hwf.
  destruct (wellFormed_title_address m Hwf) as (t & a & Ht & Ha & Hvt & Hva).
  unfold handleCopyInputValueShortcut.
  destruct (Z.eqb_spec (focusedInput m) inputTitle) as [E|_].
  - destruct (copyInputValueFromTo_spec inputTitle inputAddress m t a)
      as (m' & H & Hv & Hf); try assumption.
    exists m'. rewrite E in *. repeat split; assumption.
  - destruct (Z.eqb_spec (focusedInput m) inputAddress) as [E|_].
    + destruct (copyInputValueFromTo_spec inputAddress inputTitle m a t)
        as (m' & H & Hv & Hf); try assumption.
      exists m'. rewrite E in *. repeat split; assumption.
    + exists m. repeat split.
Qed.

Lemma wellFormed_withTitle (s : string) (m : form) :
  wellFormed m -> wellFormed (withTitle s m).
Proof. intros H. exact H. Qed.

(** Every message is handled without a fault on a well-formed form, and
    leaves the form well-formed. *)
Theorem Update_wellFormed (msg : Msg) (m : form) :
  wellFormed m ->
  exists m' c, Update msg m = Some (m', c) /\ wellFormed m'.
Proof.
  intros Hwf. destruct msg; cbn [Update];
    try (eexists _, _; split; [reflexivity | exact Hwf]).
  - eexists _, _. split; [reflexivity|]. unfold updateViewPort.
    destruct (ready m); exact Hwf.
  - unfold handleKeyboardEvent. cbv zeta.
    pose proof (wellFormed_withTitle defaultTitle m Hwf) as Hwf0.
    set (m0 := withTitle defaultTitle m) in *.
    destruct (key.Matches key (Save (keyMap_ m0))).
    { destruct (save_total m0) as (m' & c & H & Hv & Hf).
      exists m', c. split; [exact H|].
      apply (wellFormed_validators m0); [exact Hwf0 | exact Hv |].
      rewrite Hf. apply Hwf0. }
    destruct (key.Matches key (CopyInputValue (keyMap_ m0))).
    { destruct (handleCopyInputValueShortcut_wellFormed m0 Hwf0)
        as (m' & H & Hv & Hf).
      rewrite H. cbn [mbind option_bind].
      eexists _, _. split; [reflexivity|].
      apply (wellFormed_validators m0); [exact Hwf0 | exact Hv |].
      rewrite Hf. apply Hwf0. }
    destruct (_ || _).
    { now apply inputFocusChange_wellFormed. }
    destruct (key.Matches key (Discard (keyMap_ m0))).
    { eexists _, _. split; [reflexivity | exact Hwf0]. }
    destruct (focusedInputProcessKeyEvent_wellFormed (KeyMsg key) m0 Hwf0)
      as (m' & c & H & Hv & Hf).
    exists m', c. split; [exact H|].
    apply (wellFormed_validators m0); [exact Hwf0 | exact Hv |].
    rewrite Hf. apply Hwf0.
  - destruct (config_loaded_wellFormed config m Hwf) as (m' & H & Hv & Hf).
    exists m', CmdNil. split; [exact H|].
    apply (wellFormed_validators m); [exact Hwf | exact Hv |].
    rewrite Hf. apply Hwf.
Qed.

(** [New] returns a well-formed form. *)
Lemma New_wellFormed (itemID : option Z) (st : Store)
    (state : ApplicationState) :
  exists m, New itemID st state = Some m /\ wellFormed m.
Proof.
  destruct (New_spec itemID st state)
    as (m & H & Hlen & Hf & _ & _ & (t & Ht & Hvt) & (a & Ha & Hva)).
  exists m. split; [exact H|]. split; [exact Hlen|].
  split; [rewrite Hf; unfold inputTitle; lia|].
  split; [exists t | exists a]; split; assumption.
Qed.

(** X20. Every run of messages on the form [New] returns goes through
    without a fault and ends in a well-formed form, when the widget keeps
    the validator of the field it updates. *)
Theorem reachable_wellFormed (itemID : option Z) (st : Store)
    (state : ApplicationState) (msgs : list Msg) :
  exists m,
    New itemID st state ≫= deliver msgs = Some m /\ wellFormed m.
Proof.
  destruct (New_wellFormed itemID st state) as (m0 & -> & Hwf).
  cbn [mbind option_bind]. revert m0 Hwf.
  induction msgs as [|msg msgs IH]; intros m Hwf; cbn [deliver].
  - eauto.
  - destruct (Update_wellFormed msg m Hwf) as (m' & c & -> & Hwf').
    now apply IH.
Qed.

End InvariantProperties.

(** ** The host model: further properties *)

Section HostCoverage.
Context {cmds : ssh.Commands}.

Lemma allSpace_no_at (l : list ascii) :
  allSpace strings.spaceRunes l -> ~ In "@"%char l.
Proof.
  induction 1 as [|p s Hp _ IH]; [easy|].
  intros Hin. apply in_app_or in Hin as [Hin|Hin]; [|now apply IH].
  revert Hin. clear -Hp. unfold strings.spaceRunes in Hp. simpl in Hp.
  repeat (destruct Hp as [<-|Hp]; [simpl; intuition discriminate|]).
  contradiction.
Qed.

(** X1. Trimming removes white space only: an address that contains an at
    sign anywhere is user-defined, and an address that contains neither a
    space nor an at sign is structured. *)
Theorem IsUserDefinedSSHCommand_at_sign (h : host.Host) :
  (In "@"%char (strings.bytes (host.Address h)) ->
   host.IsUserDefinedSSHCommand h = true)
  /\ (~ In " "%char (strings.bytes (host.Address h)) ->
      ~ In "@"%char (strings.bytes (host.Address h)) ->
      host.IsUserDefinedSSHCommand h = false).
Proof.
  destruct (TrimSpace_spec (host.Address h))
    as (pre & post & Hs & Hpre & Hpost & _).
  split.
  - intros Hin. apply IsUserDefinedSSHCommand_trimmed. right.
    rewrite Hs in Hin.
    apply in_app_or in Hin as [Hin|Hin];
      [now apply allSpace_no_at in Hpre|].
    apply in_app_or in Hin as [Hin|Hin]; [exact Hin|].
    now apply allSpace_no_at in Hpost.
  - intros Hsp Hat.
    destruct (host.IsUserDefinedSSHCommand h) eqn:E; [|reflexivity].
    apply IsUserDefinedSSHCommand_trimmed in E. exfalso.
    destruct E as [E|E]; [apply Hsp | apply Hat];
      rewrite Hs; apply in_or_app; right; apply in_or_app; now left.
Qed.

Lemma spaces_trimLeft (n : nat) :
  forall fuel, (n <= fuel)%nat ->
  strings.dropWhile strings.spaceRunes fuel (repeat " "%char n) = [].
Proof.
  induction n as [|n IH]; intros fuel Hf.
  - destruct fuel; reflexivity.
  - destruct fuel as [|fuel]; [lia|].
    change (strings.dropWhile strings.spaceRunes (S fuel) (repeat " "%char (S n)))
      with (strings.dropWhile strings.spaceRunes fuel (repeat " "%char n)).
    apply IH. lia.
Qed.

(** X2. An address made of spaces only is structured: the spaces are
    trimmed before the address is searched. *)
Theorem IsUserDefinedSSHCommand_blank (h : host.Host) (n : nat) :
  host.Address h = string_of_list_ascii (repeat " "%char n) ->
  host.IsUserDefinedSSHCommand h = false.
Proof.
  intros Ha. unfold host.IsUserDefinedSSHCommand. rewrite Ha.
  assert (strings.TrimSpace (string_of_list_ascii (repeat " "%char n)) = "")
    as ->; [|reflexivity].
  unfold strings.TrimSpace, strings.bytes.
  rewrite list_ascii_of_string_of_list_ascii. unfold strings.trimLeft.
  rewrite spaces_trimLeft by (rewrite repeat_length; lia). reflexivity.
Qed.

(** X3. The command that loads the configuration is built from the
    address, the identity file, the port and the login only: the password,
    the title, the description, the id and the resolved configuration of
    the host never reach it. *)
Theorem CmdSSHConfig_fields (h : host.Host) :
  host.CmdSSHConfig h =
    host.CmdSSHConfig
      (host.mkHost 0 "" "" (host.Address h) (host.RemotePort h)
         (host.LoginName h) (host.IdentityFilePath h) "" None)
  /\ (host.IsUserDefinedSSHCommand h = true ->
      host.CmdSSHConfig h =
        ssh.LoadConfigCommand [ssh.OptionReadConfig (host.Address h)])
  /\ (host.IsUserDefinedSSHCommand h = false ->
      host.CmdSSHConfig h =
        ssh.LoadConfigCommand
          [ ssh.OptionPrivateKey (host.IdentityFilePath h);
            ssh.OptionRemotePort (host.RemotePort h);
            ssh.OptionLoginName (host.LoginName h);
            ssh.OptionReadConfig (host.Address h) ]).
Proof.
  unfold host.CmdSSHConfig, host.IsUserDefinedSSHCommand. simpl.
  split; [reflexivity|]. split; now intros ->.
Qed.

(** X4. On a structured address the connect command is the SSH invocation
    with the identity file, the port, the login and the address, in this
    order; it is wrapped by the password helper exactly when the password
    is not empty. *)
Theorem CmdSSHConnect_structured (h : host.Host) :
  host.IsUserDefinedSSHCommand h = false ->
  let command :=
    ssh.ConnectCommand
      [ ssh.OptionPrivateKey (host.IdentityFilePath h);
        ssh.OptionRemotePort (host.RemotePort h);
        ssh.OptionLoginName (host.LoginName h);
        ssh.OptionAddress (host.Address h) ] in
  (host.Password h = "" -> host.CmdSSHConnect h = command)
  /\ (host.Password h <> "" ->
      host.CmdSSHConnect h =
        "sshpass -p '" ++ host.Password h ++ "' " ++ command).
Proof.
  intros Hs. cbv zeta. unfold host.CmdSSHConnect, host.sshpass. rewrite Hs.
  destruct (String.eqb_spec (host.Password h) "") as [E|E]; split;
    intros H; try reflexivity; contradiction.
Qed.

(** X5. A clone connects and loads its configuration as the original does,
    and cloning twice is cloning once; but a clone has no resolved
    configuration, so the copy-identity command faults on every clone. *)
Theorem Clone_commands (h : host.Host) :
  host.IsUserDefinedSSHCommand (host.Clone h) = host.IsUserDefinedSSHCommand h
  /\ host.CmdSSHConnect (host.Clone h) = host.CmdSSHConnect h
  /\ host.CmdSSHConfig (host.Clone h) = host.CmdSSHConfig h
  /\ host.Clone (host.Clone h) = host.Clone h
  /\ host.CmdSSHCopyID (host.Clone h) = None.
Proof. repeat split. Qed.

(** X6. [NewHost] takes the login, the identity file and the port in this
    order and stores each under its own field: on a structured address the
    connect command of the new host lists identity file, port, login and
    address. The new host has no resolved configuration, so the
    copy-identity command faults on it, and its clone is the same host with
    the id zero. *)
Theorem NewHost_commands (id : Z)
    (title description address loginName identityFilePath remotePort
     password : string) :
  let h := host.NewHost id title description address loginName
             identityFilePath remotePort password in
  host.CmdSSHConfig h =
    (if host.IsUserDefinedSSHCommand h
     then ssh.LoadConfigCommand [ssh.OptionReadConfig address]
     else ssh.LoadConfigCommand
            [ ssh.OptionPrivateKey identityFilePath;
              ssh.OptionRemotePort remotePort;
              ssh.OptionLoginName loginName;
              ssh.OptionReadConfig address ])
  /\ host.CmdSSHCopyID h = None
  /\ host.Clone h =
       host.NewHost 0 title description address loginName identityFilePath
         remotePort password.
Proof. cbv zeta. repeat split. Qed.

End HostCoverage.

(** ** The host wrapper: attributes by ordinal *)

Section WrapperCoverage.
Variable inputPassword : Z.

Import hostedit.

Local Abbreviation getAt := (getHostAttributeValueByIndex inputPassword).
Local Abbreviation setAt := (setHostAttributeByIndex inputPassword).

Ltac ordinals :=
  unfold getHostAttributeValueByIndex, setHostAttributeByIndex, unwrap,
    inputTitle, inputAddress, inputDescription, inputLogin,
    inputNetworkPort, inputIdentityFile; cbv zeta;
  repeat match goal with
         | |- context [Z.eqb ?a ?b] =>
             destruct (Z.eqb_spec a b); try lia; cbn [Host]
         end;
  cbn [Host host.Title host.Address host.Description host.LoginName
       host.RemotePort host.IdentityFilePath host.Password host.ID
       host.SSHClientConfig];
  try reflexivity; try congruence; try lia.

(** X7. What was set under an ordinal is what is read under it, for the
    six ordinals of the form fields and for the password ordinal. *)
Theorem get_set (i : Z) (v : string) (m : hostModelWrapper) :
  boundOrdinal inputPassword i -> getAt i (setAt i v m) = v.
Proof. unfold boundOrdinal. intros Hi. ordinals. Qed.

(** X8. Setting an attribute changes nothing else: the attributes of the
    other ordinals, the id and the resolved configuration are as before;
    under an ordinal the switches do not know, nothing is set and the empty
    string is read. *)
Theorem set_frame (i : Z) (v : string) (m : hostModelWrapper) :
  (forall j, j <> i -> getAt j (setAt i v m) = getAt j m)
  /\ host.ID (unwrap (setAt i v m)) = host.ID (unwrap m)
  /\ host.SSHClientConfig (unwrap (setAt i v m))
     = host.SSHClientConfig (unwrap m)
  /\ (~ boundOrdinal inputPassword i -> setAt i v m = m /\ getAt i m = "").
Proof.
  unfold boundOrdinal. repeat split; try intros j Hj; try intros Hi; ordinals.
Qed.

(** X9. Writing back what was read changes nothing; of two writes under
    one ordinal the second stands; writes under two ordinals commute. *)
Theorem set_set (i j : Z) (v w : string) (m : hostModelWrapper) :
  setAt i (getAt i m) m = m
  /\ setAt i w (setAt i v m) = setAt i w m
  /\ (i <> j -> setAt i v (setAt j w m) = setAt j w (setAt i v m)).
Proof.
  destruct m as [h]. destruct h.
  repeat split; try intros Hij; ordinals.
Qed.

End WrapperCoverage.

(** ** The edit form: what the messages leave alone *)

Section FrameCoverage.
Context {env : Environment} {Store : Type} {storage : HostStorage Store}.

Import hostedit.
Local Abbreviation form := (@editModel Store).

Lemma rest_copyInputValueFromTo (src dst : Z) (m m' : form) :
  copyInputValueFromTo src dst m = Some m' -> rest m' = rest m.
Proof.
  unfold copyInputValueFromTo.
  destruct (goint.index (inputs m) src); [|discriminate].
  destruct (goint.index (inputs m) dst) as [d|]; [|discriminate].
  cbn [mbind option_bind]. destruct (input.Validate d); [|discriminate].
  cbn [mbind option_bind]. now intros [= <-].
Qed.

Lemma rest_focusLoop (n : nat) :
  forall (i : Z) (m m' : form) (cmds cmds' : list Cmd),
    focusLoop n i m cmds = Some (m', cmds') -> rest m' = rest m.
Proof.
  induction n as [|n IH]; intros i m m' cmds cmds'; cbn [focusLoop].
  - now intros [= <- <-].
  - destruct (goint.index (inputs m) i); [|discriminate].
    cbn [mbind option_bind]. cbv zeta.
    destruct (i =? focusedInput m); cbn [input.Focus];
      intros H; apply IH in H; exact H.
Qed.

Lemma rest_inputFocusChange (msg : Msg) (m m' : form) (c : Cmd) :
  inputFocusChange msg m = Some (m', c) -> rest m' = rest m.
Proof.
  unfold inputFocusChange. destruct msg; try discriminate. cbv zeta.
  destruct (_ && _).
  - destruct (focusLoop _ _ _ _) as [[m1 cmds]|] eqn:E; [|discriminate].
    cbn [mbind option_bind]. intros [= <- <-].
    now apply rest_focusLoop in E.
  - destruct (_ && _).
    + destruct (focusLoop _ _ _ _) as [[m1 cmds]|] eqn:E; [|discriminate].
      cbn [mbind option_bind]. intros [= <- <-].
      now apply rest_focusLoop in E.
    + now intros [= <- <-].
Qed.

Lemma rest_focusedInputProcessKeyEvent (msg : Msg) (m m' : form) (c : Cmd) :
  focusedInputProcessKeyEvent msg m = Some (m', c) -> rest m' = rest m.
Proof.
  unfold focusedInputProcessKeyEvent.
  destruct (goint.index (inputs m) (focusedInput m)) as [x|]; [|discriminate].
  cbn [mbind option_bind].
  destruct (if focusedInput m =? inputTitle then _ else _) as [b|];
    [|discriminate].
  cbn [mbind option_bind]. cbv zeta.
  set (m1 := setInput (focusedInput m) (inputUpdate msg x) m).
  destruct (if b then _ else _) as [m2|] eqn:E; [|discriminate].
  cbn [mbind option_bind].
  assert (rest m2 = rest m) as H2.
  { destruct b; [now apply rest_copyInputValueFromTo in E|].
    now injection E as <-. }
  destruct (focusedInput m2 =? inputAddress).
  - destruct (goint.index (inputs m2) inputAddress); [|discriminate].
    cbn [mbind option_bind]. destruct (negb _); now intros [= <- <-].
  - now intros [= <- <-].
Qed.

Lemma rest_handleCopyInputValueShortcut (m m' : form) :
  handleCopyInputValueShortcut m = Some m' -> rest m' = rest m.
Proof.
  unfold handleCopyInputValueShortcut.
  destruct (focusedInput m =? inputTitle);
    [apply rest_copyInputValueFromTo|].
  destruct (focusedInput m =? inputAddress);
    [apply rest_copyInputValueFromTo|].
  now intros [= <-].
Qed.

Lemma rest_setPlaceholder (i : Z) (s : string) (m m' : form) :
  setPlaceholder i s m = Some m' -> rest m' = rest m.
Proof.
  unfold setPlaceholder. destruct (goint.index (inputs m) i); [|discriminate].
  now intros [= <-].
Qed.

Lemma rest_setEnabledAt (b : bool) (m : form) (i : Z) :
  rest (setEnabledAt b m i) = rest m.
Proof.
  unfold setEnabledAt. now destruct (goint.index (inputs m) i).
Qed.

Lemma rest_config_loaded (c : ssh.Config) (m m' : form) (cmd : Cmd) :
  Update (HostSSHConfigLoaded c) m = Some (m', cmd) -> rest m' = rest m.
Proof.
  cbn [Update]. unfold updateInputPlaceholders.
  destruct (isCustomConnectString m) as [b|]; [|discriminate].
  cbn [mbind option_bind]. cbv zeta.
  destruct (setPlaceholder inputLogin _ m) as [m1|] eqn:E1; [|discriminate].
  cbn [mbind option_bind].
  destruct (setPlaceholder inputNetworkPort _ m1) as [m2|] eqn:E2;
    [|discriminate].
  cbn [mbind option_bind].
  destruct (setPlaceholder inputIdentityFile _ m2) as [m3|] eqn:E3;
    [|discriminate].
  cbn [mbind option_bind].
  apply rest_setPlaceholder in E1, E2, E3.
  unfold updateInputTitles.
  destruct (isCustomConnectString m3) as [b3|]; [|discriminate].
  cbn [mbind option_bind]. cbv zeta.
  destruct (goint.index (inputs m3) inputLogin); [|discriminate].
  cbn [mbind option_bind].
  destruct (goint.index (inputs m3) inputNetworkPort); [|discriminate].
  cbn [mbind option_bind].
  destruct (goint.index (inputs m3) inputIdentityFile); [|discriminate].
  cbn [mbind option_bind].
  destruct b3; cbn [mbind option_bind fold_left]; intros [= <- <-];
    rewrite ?rest_setEnabledAt; congruence.
Qed.

(** X10. Only a save changes the record being edited or reaches the
    storage: every other message leaves the record, the storage, the
    new-record flag and the application state of the form as they are. *)
Theorem Update_keeps_record (msg : Msg) (m m' : form) (c : Cmd) :
  Update msg m = Some (m', c) ->
  (forall k, msg = KeyMsg k -> key.Matches k (Save (keyMap_ m)) = false) ->
  host m' = host m
  /\ hostStorage m' = hostStorage m
  /\ isNewHost m' = isNewHost m
  /\ appState m' = appState m.
Proof.
  intros H Hk.
  assert (fst (fst (fst (rest m'))) = fst (fst (fst (rest m)))) as E.
  { destruct msg; cbn [Update] in H;
      try (injection H as <- <-; reflexivity).
    - injection H as <- <-. unfold updateViewPort. now destruct (ready m).
    - unfold handleKeyboardEvent in H. cbv zeta in H.
      cbn [keyMap_ withTitle] in H. rewrite (Hk key eq_refl) in H.
      destruct (key.Matches key (CopyInputValue (keyMap_ m))).
      { destruct (handleCopyInputValueShortcut _) as [m1|] eqn:E;
          [|discriminate].
        cbn [mbind option_bind] in H. injection H as <- <-.
        now apply rest_handleCopyInputValueShortcut in E as ->. }
      destruct (_ || _).
      { now apply rest_inputFocusChange in H as ->. }
      destruct (key.Matches key (Discard (keyMap_ m))).
      { now injection H as <- <-. }
      now apply rest_focusedInputProcessKeyEvent in H as ->.
    - now apply rest_config_loaded in H as ->. }
  unfold rest in E. cbn [fst] in E. injection E as E1 E2 E3 E4. auto.
Qed.

(** X11. Any key other than the save key puts the default title back, so
    the error a failed save wrote in the title is gone with the next key;
    a message that is no key leaves the title as it is. *)
Theorem Update_title (msg : Msg) (m m' : form) (c : Cmd) :
  Update msg m = Some (m', c) ->
  (forall k, msg = KeyMsg k -> key.Matches k (Save (keyMap_ m)) = false) ->
  title m' = match msg with KeyMsg _ => defaultTitle | _ => title m end.
Proof.
  intros H Hk.
  assert (rest m' = rest (match msg with
                          | KeyMsg _ => withTitle defaultTitle m
                          | WindowSizeMsg _ _ => updateViewPort m
                          | debouncedMessage w t =>
                              fst (handleDebouncedMessage w t m)
                          | _ => m
                          end)) as E.
  { destruct msg; cbn [Update] in H;
      try (injection H as <- <-; reflexivity).
    - unfold handleKeyboardEvent in H. cbv zeta in H.
      cbn [keyMap_ withTitle] in H. rewrite (Hk key eq_refl) in H.
      destruct (key.Matches key (CopyInputValue (keyMap_ m))).
      { destruct (handleCopyInputValueShortcut _) as [m1|] eqn:E;
          [|discriminate].
        cbn [mbind option_bind] in H. injection H as <- <-.
        now apply rest_handleCopyInputValueShortcut in E as ->. }
      destruct (_ || _).
      { now apply rest_inputFocusChange in H as ->. }
      destruct (key.Matches key (Discard (keyMap_ m))).
      { now injection H as <- <-. }
      now apply rest_focusedInputProcessKeyEvent in H as ->.
    - now apply rest_config_loaded in H as ->. }
  assert (title m' = snd (fst (rest m'))) as -> by reflexivity.
  rewrite E. destruct msg; try reflexivity.
  unfold updateViewPort. now destruct (ready m).
Qed.

End FrameCoverage.

(** ** The edit form: further properties of the operations *)

Section OperationCoverage.
Context {env : Environment} {Store : Type} {storage : HostStorage Store}.

Import hostedit.
Local Abbreviation form := (@editModel Store).

(** X12. A save that meets a refused field records the validator's error
    on that field and touches no other field of the form: texts,
    validators, focus and the other errors are as before. *)
Theorem save_marks_refused_field (m : form) (k : nat) (inp : input.Input)
    (err : string) :
  firstInvalid (inputs m) = Some (k, inp, err) ->
  exists m',
    save m = Some (m', CmdNil)
    /\ inputs m' = <[k := input.withErr (Some err) inp]> (inputs m)
    /\ inputs m !! k = Some inp
    /\ focusedInput m' = focusedInput m
    /\ keyMap_ m' = keyMap_ m
    /\ debounceTag m' = debounceTag m.
Proof.
  intros Hk. unfold save.
  pose proof (saveLoop_spec (inputs m) [] m eq_refl) as Hloop.
  rewrite Hk in Hloop. change (goint.len []) with 0 in Hloop.
  rewrite Hloop. cbn [mbind option_bind]. cbv zeta.
  eexists. split; [reflexivity|].
  cbn [inputs focusedInput keyMap_ debounceTag withTitle setInput withInputs
       withHost].
  unfold goint.store. rewrite Z.add_0_l, Nat2Z.id.
  apply firstInvalid_Some in Hk as (Hl & _). auto.
Qed.

(** X13. A key handled by the focused field asks for the configuration to
    be loaded exactly when the address has the focus and the key changed
    its text; the envelope carries the new text and the tag of the form,
    which the key leaves as it is. A key typed in the title asks for
    nothing, also when its text is mirrored into the address. *)
Theorem focusedInputProcessKeyEvent_cmd (msg : Msg) (m m' : form) (c : Cmd) :
  focusedInputProcessKeyEvent msg m = Some (m', c) ->
  exists x,
    goint.index (inputs m) (focusedInput m) = Some x
    /\ debounceTag m' = debounceTag m
    /\ focusedInput m' = focusedInput m
    /\ c = if (focusedInput m =? inputAddress)
              && negb (String.eqb (input.Value x)
                                  (input.Value (inputUpdate msg x)))
           then TeaCmd (debouncedMessage
                          (RunProcessLoadSSHConfig
                             (input.Value (inputUpdate msg x)))
                          (debounceTag m))
           else CmdNil.
Proof.
  unfold focusedInputProcessKeyEvent.
  destruct (goint.index (inputs m) (focusedInput m)) as [x|] eqn:Hx;
    [|discriminate].
  cbn [mbind option_bind]. intros H. exists x. split; [reflexivity|].
  pose proof (index_lt _ _ _ Hx) as Hlt.
  destruct (Z.eqb_spec (focusedInput m) inputTitle) as [Ht|Ht].
  - destruct (goint.index (inputs m) inputTitle); [|discriminate].
    destruct (goint.index (inputs m) inputAddress); [|discriminate].
    cbn [mbind option_bind] in H. cbv zeta in H.
    destruct (if (isNewHost m && _) then _ else _) as [m2|] eqn:E;
      [|discriminate].
    cbn [mbind option_bind] in H.
    assert (rest m2 = rest m /\ focusedInput m2 = focusedInput m) as [Hr Hf].
    { destruct (isNewHost m && _).
      - split; [now apply rest_copyInputValueFromTo in E|].
        unfold copyInputValueFromTo in E.
        destruct (goint.index _ inputTitle); [|discriminate].
        destruct (goint.index _ inputAddress) as [d|]; [|discriminate].
        cbn [mbind option_bind] in E.
        destruct (input.Validate d); [|discriminate].
        now injection E as <-.
      - now injection E as <-. }
    rewrite Hf, Ht in H. change (inputTitle =? inputAddress) with false in H.
    injection H as <- <-. rewrite Ht.
    change (inputTitle =? inputAddress) with false. cbn [andb].
    repeat split; [|congruence].
    change (debounceTag m2) with (snd (rest m2)). now rewrite Hr.
  - cbn [mbind option_bind] in H. cbv zeta in H.
    unfold setInput in H. cbn [focusedInput inputs withInputs] in H.
    destruct (Z.eqb_spec (focusedInput m) inputAddress) as [Ha|Ha].
    + rewrite Ha in H.
      rewrite index_store_eq in H by (rewrite <- Ha; exact Hlt).
      cbn [mbind option_bind] in H. cbn [andb].
      destruct (negb _); injection H as <- <-; repeat split.
    + injection H as <- <-. repeat split.
Qed.

(** X14. The copy shortcut with the focus on the title sets the text of
    the title in the address field, and with the focus on the address sets
    the text of the address in the title field, also when the validator of
    the target refuses the text. The target holds the runes the widget
    makes of the text, cut to the character limit of the target; it shows
    the verdict of its validator on the text as it was handed over, its
    cursor is at the end of the shorter of the two, and its validator and
    limit are kept. With the focus on another field the shortcut does
    nothing. *)
Theorem handleCopyInputValueShortcut_spec (m : form) (t a : input.Input)
    (vt va : string -> option string) :
  goint.index (inputs m) inputTitle = Some t ->
  goint.index (inputs m) inputAddress = Some a ->
  input.Validate t = Some vt ->
  input.Validate a = Some va ->
  exists m',
    handleCopyInputValueShortcut m = Some m'
    /\ rest m' = rest m
    /\ focusedInput m' = focusedInput m
    /\ (focusedInput m = inputTitle ->
        exists a',
          inputs m' = goint.store (inputs m) inputAddress a'
          /\ input.value a' =
               limited (input.CharLimit a) (input.Sanitize (input.Value t))
          /\ input.Err a' = va (input.Value t)
          /\ input.Validate a' = Some va
          /\ input.CharLimit a' = input.CharLimit a
          /\ input.cursor a' =
               Z.min (goint.len (input.value a'))
                     (Z.of_nat (String.length (input.Value t))))
    /\ (focusedInput m = inputAddress ->
        exists t',
          inputs m' = goint.store (inputs m) inputTitle t'
          /\ input.value t' =
               limited (input.CharLimit t) (input.Sanitize (input.Value a))
          /\ input.Err t' = vt (input.Value a)
          /\ input.Validate t' = Some vt
          /\ input.CharLimit t' = input.CharLimit t
          /\ input.cursor t' =
               Z.min (goint.len (input.value t'))
                     (Z.of_nat (String.length (input.Value a))))
    /\ (focusedInput m <> inputTitle -> focusedInput m <> inputAddress ->
        m' = m).
Proof.
  intros Ht Ha Hvt Hva. unfold handleCopyInputValueShortcut.
  destruct (Z.eqb_spec (focusedInput m) inputTitle) as [E|E].
  - assert (goint.index (inputs m) (focusedInput m) = Some t) as Hs
      by now rewrite E.
    unfold copyInputValueFromTo. rewrite Hs, Ha.
    cbn [mbind option_bind]. rewrite Hva. cbn [mbind option_bind].
    eexists. split; [reflexivity|]. split; [reflexivity|].
    split; [reflexivity|]. split; [|split].
    + intros _. eexists. split; [reflexivity|].
      destruct (copied_field (input.Value t) a va)
        as (H1 & H2 & H3 & H4 & _ & _ & H7 & _).
      repeat match goal with |- _ /\ _ => split end; assumption.
    + intros H. rewrite E in H. discriminate H.
    + intros H. contradiction.
  - destruct (Z.eqb_spec (focusedInput m) inputAddress) as [E'|E'].
    + assert (goint.index (inputs m) (focusedInput m) = Some a) as Hs
        by now rewrite E'.
      unfold copyInputValueFromTo. rewrite Hs, Ht.
      cbn [mbind option_bind]. rewrite Hvt. cbn [mbind option_bind].
      eexists. split; [reflexivity|]. split; [reflexivity|].
      split; [reflexivity|]. split; [|split].
      * intros H. contradiction.
      * intros _. eexists. split; [reflexivity|].
        destruct (copied_field (input.Value a) t vt)
          as (H1 & H2 & H3 & H4 & _ & _ & H7 & _).
        repeat match goal with |- _ /\ _ => split end; assumption.
      * intros _ H. contradiction.
    + exists m. repeat split; intros; contradiction.
Qed.

End OperationCoverage.

(** ** The edit form: the fields after a navigation *)

Section NavigationCoverage.
Context {env : Environment} {Store : Type}.

Import hostedit.
Local Abbreviation form := (@editModel Store).

Lemma focusLoop_fields (n : nat) :
  forall (i : Z) (m m' : form) (cmds cmds' : list Cmd),
    0 <= i ->
    focusLoop n i m cmds = Some (m', cmds') ->
    (forall j x, inputs m !! j = Some x ->
       inputs m' !! j =
         Some (if (Z.to_nat i <=? j)%nat && (j <? Z.to_nat i + n)%nat
               then refocused (focusedInput m) j x else x))
    /\ focusedInput m' = focusedInput m
    /\ (keyMap_ m', cmds') =
         if (i <=? focusedInput m) && (focusedInput m <? i + Z.of_nat n)
         then (getKeyMap (focusedInput m), (cmds ++ [FocusCmd])%list)
         else (keyMap_ m, cmds).
Proof.
  induction n as [|n IH]; intros i m m' cmds cmds' Hi; cbn [focusLoop].
  - intros [= <- <-]. split; [|split].
    + intros j x Hx. rewrite Hx.
      destruct (Nat.leb_spec (Z.to_nat i) j), (Nat.ltb_spec j (Z.to_nat i + 0));
        simpl; try reflexivity; lia.
    + reflexivity.
    + destruct (Z.leb_spec i (focusedInput m)),
        (Z.ltb_spec (focusedInput m) (i + Z.of_nat 0));
        simpl; try reflexivity; lia.
  - destruct (goint.index (inputs m) i) as [inp|] eqn:Hinp; [|discriminate].
    apply index_Some in Hinp as [_ Hinp].
    cbn [mbind option_bind]. cbv zeta.
    assert (forall b : bool,
              (Z.of_nat (Z.to_nat i) =? focusedInput m) = b ->
              input.withFocused b
                match input.Validate inp with
                | Some validate =>
                    input.withErr (validate (input.Value inp)) inp
                | None => inp
                end
              = refocused (focusedInput m) (Z.to_nat i) inp) as Hre.
    { intros b <-. unfold refocused, revalidated.
      destruct inp as [? ? ? ? [v|] ? ? ? ?]; reflexivity. }
    rewrite Z2Nat.id in Hre by lia.
    destruct (Z.eqb_spec i (focusedInput m)) as [Hfoc|Hfoc];
      cbn [input.Focus]; unfold input.Blur; rewrite (Hre _ eq_refl);
      intros H; apply IH in H as (Hfields & Hfocus & Hkm); try lia;
      unfold setInput in *;
      cbn [inputs focusedInput keyMap_ withInputs withKeyMap] in *;
      (split; [|split; [exact Hfocus|]]).
    + intros j x Hx. destruct (Nat.eq_dec j (Z.to_nat i)) as [->|Hne].
      * rewrite (Hfields (Z.to_nat i) (refocused (focusedInput m) (Z.to_nat i) inp)).
        2:{ unfold goint.store. apply list_lookup_insert_eq.
            apply lookup_lt_Some in Hinp. exact Hinp. }
        rewrite Hinp in Hx. injection Hx as <-.
        destruct (Nat.leb_spec (Z.to_nat (i + 1)) (Z.to_nat i)); [lia|].
        destruct (Nat.leb_spec (Z.to_nat i) (Z.to_nat i)); [|lia].
        destruct (Nat.ltb_spec (Z.to_nat i) (Z.to_nat i + S n)); [|lia].
        reflexivity.
      * rewrite (Hfields j x).
        2:{ unfold goint.store. rewrite list_lookup_insert_ne by lia.
            exact Hx. }
        destruct (Nat.leb_spec (Z.to_nat (i + 1)) j),
          (Nat.ltb_spec j (Z.to_nat (i + 1) + n)),
          (Nat.leb_spec (Z.to_nat i) j),
          (Nat.ltb_spec j (Z.to_nat i + S n)); simpl; try reflexivity; lia.
    + rewrite Hkm.
      destruct (Z.leb_spec (i + 1) (focusedInput m)); [lia|].
      destruct (Z.leb_spec i (focusedInput m)); [|lia].
      destruct (Z.ltb_spec (focusedInput m) (i + Z.of_nat (S n))); [|lia].
      simpl. now rewrite Hfoc.
    + intros j x Hx. destruct (Nat.eq_dec j (Z.to_nat i)) as [->|Hne].
      * rewrite (Hfields (Z.to_nat i) (refocused (focusedInput m) (Z.to_nat i) inp)).
        2:{ unfold goint.store. apply list_lookup_insert_eq.
            apply lookup_lt_Some in Hinp. exact Hinp. }
        rewrite Hinp in Hx. injection Hx as <-.
        destruct (Nat.leb_spec (Z.to_nat (i + 1)) (Z.to_nat i)); [lia|].
        destruct (Nat.leb_spec (Z.to_nat i) (Z.to_nat i)); [|lia].
        destruct (Nat.ltb_spec (Z.to_nat i) (Z.to_nat i + S n)); [|lia].
        reflexivity.
      * rewrite (Hfields j x).
        2:{ unfold goint.store. rewrite list_lookup_insert_ne by lia.
            exact Hx. }
        destruct (Nat.leb_spec (Z.to_nat (i + 1)) j),
          (Nat.ltb_spec j (Z.to_nat (i + 1) + n)),
          (Nat.leb_spec (Z.to_nat i) j),
          (Nat.ltb_spec j (Z.to_nat i + S n)); simpl; try reflexivity; lia.
    + rewrite Hkm.
      destruct (Z.leb_spec (i + 1) (focusedInput m)),
        (Z.ltb_spec (focusedInput m) (i + 1 + Z.of_nat n)),
        (Z.leb_spec i (focusedInput m)),
        (Z.ltb_spec (focusedInput m) (i + Z.of_nat (S n)));
        simpl; try reflexivity; lia.
Qed.

(** X15. After a navigation key that moves the focus, the focus flag is on
    the field of the new focus index and on no other; every field shows
    the error its validator gives for its text, and keeps its text and its
    validator; the copy shortcut is enabled exactly when the new focus is
    on the title or on the address; the command is the focus command of
    the one focused field. *)
Theorem inputFocusChange_moved (k : string) (m m' : form) (c : Cmd) :
  goint.inRange (goint.len (inputs m)) ->
  0 <= focusedInput m <= goint.len (inputs m) - 1 ->
  inputFocusChange (KeyMsg k) m = Some (m', c) ->
  focusedInput m' <> focusedInput m ->
  (forall j x, inputs m !! j = Some x ->
     exists x',
       inputs m' !! j = Some x'
       /\ input.focused x' = (Z.of_nat j =? focusedInput m')
       /\ input.Err x' = revalidated x
       /\ input.Value x' = input.Value x
       /\ input.Validate x' = input.Validate x
       /\ input.enabled x' = input.enabled x)
  /\ key.disabled (CopyInputValue (keyMap_ m'))
     = negb ((focusedInput m' =? inputTitle)
             || (focusedInput m' =? inputAddress))
  /\ c = Batch [FocusCmd].
Proof.
  intros Hlen Hf H Hmoved.
  destruct (inputFocusChange_spec k m Hlen Hf) as (m1 & c1 & H1 & _ & H3).
  rewrite H in H1. injection H1 as <- <-.
  unfold inputFocusChange in H. cbv zeta in H.
  assert (0 <= goint.len (inputs m)) as Hlen0 by (unfold goint.len; lia).
  assert (forall (m0 : form) (f : Z),
            m0 = withFocusedInput f m -> 0 <= f <= goint.len (inputs m) - 1 ->
            (m1' ← focusLoop (length (inputs m0)) 0 m0 [];
             Some (fst m1', Batch (snd m1'))) = Some (m', c) ->
            focusedInput m' = f
            /\ (forall j x, inputs m !! j = Some x ->
                  inputs m' !! j = Some (refocused f j x))
            /\ keyMap_ m' = getKeyMap f /\ c = Batch [FocusCmd]) as Hloop.
  { intros m0 f -> Hfr Hl.
    destruct (focusLoop _ _ _ _) as [[m2 cmds]|] eqn:E; [|discriminate].
    cbn [mbind option_bind fst snd] in Hl. injection Hl as <- <-.
    apply focusLoop_fields in E as (Hfields & Hfocus & Hkm); [|lia].
    cbn [inputs focusedInput keyMap_ withFocusedInput] in *.
    change (Z.to_nat 0) with 0%nat in Hfields.
    destruct (Z.leb_spec 0 f); [|lia].
    destruct (Z.ltb_spec f (0 + Z.of_nat (length (inputs m))));
      [|unfold goint.len in Hfr; lia].
    cbn [andb] in Hkm. injection Hkm as -> ->.
    split; [exact Hfocus|]. split; [|split; reflexivity].
    intros j x Hx. rewrite (Hfields j x Hx).
    pose proof (lookup_lt_Some _ _ _ Hx).
    destruct (Nat.ltb_spec j (0 + length (inputs m))); [reflexivity | lia]. }
  assert (focusedInput m' = focusedInput m'
          /\ (forall j x, inputs m !! j = Some x ->
                inputs m' !! j = Some (refocused (focusedInput m') j x))
          /\ keyMap_ m' = getKeyMap (focusedInput m')
          /\ c = Batch [FocusCmd]) as (_ & Hfields & Hkm & Hc).
  { unfold goint.sub, goint.add in H.
    rewrite (wrap_inRange (goint.len (inputs m) - 1)) in H
      by (unfold goint.inRange in *; lia).
    destruct (key.Matches k (Up (keyMap_ m)) && (0 <? focusedInput m)) eqn:Eup.
    - apply andb_true_iff in Eup as [_ Hpos]. apply Z.ltb_lt in Hpos.
      rewrite wrap_inRange in H by (unfold goint.inRange in *; lia).
      destruct (Hloop (withFocusedInput (focusedInput m - 1) m)
                  (focusedInput m - 1) eq_refl) as (Hf' & Hrest);
        [clear -Hpos Hf; lia | | rewrite Hf'; split; [reflexivity | exact Hrest]].
      destruct (focusLoop _ _ _ _) as [[m2 cmds]|]; exact H.
    - destruct (key.Matches k (Down (keyMap_ m))
                && (focusedInput m <? goint.len (inputs m) - 1)) eqn:Edown.
      + apply andb_true_iff in Edown as [_ Hlt]. apply Z.ltb_lt in Hlt.
        rewrite wrap_inRange in H by (unfold goint.inRange in *; lia).
        destruct (Hloop (withFocusedInput (focusedInput m + 1) m)
                    (focusedInput m + 1) eq_refl) as (Hf' & Hrest);
          [clear -Hlt Hf; lia | | rewrite Hf'; split; [reflexivity | exact Hrest]].
        destruct (focusLoop _ _ _ _) as [[m2 cmds]|]; exact H.
      + injection H as <- <-. contradiction. }
  split; [|split; [|exact Hc]].
  - intros j x Hx. eexists. split; [apply Hfields, Hx|].
    unfold refocused. repeat split.
  - rewrite Hkm. unfold getKeyMap. cbn [CopyInputValue key.SetEnabled key.disabled].
    reflexivity.
Qed.

End NavigationCoverage.

(** ** The edit form: construction and the loaded configuration *)

Section ConstructionCoverage.
Context {env : Environment} {Store : Type} {storage : HostStorage Store}.

Import hostedit.
Local Abbreviation form := (@editModel Store).

(** X16. The notification that the configuration was loaded writes the
    placeholders of the login, the port and the identity file from the
    configuration of the application state, with the prefix of the address
    mode, and leaves the other placeholders, every text and everything
    that is no field as it is; the payload of the notification is not
    read, and handling the notification again changes nothing more. *)
Theorem config_loaded_placeholders (c c' : ssh.Config) (m : form) :
  length (inputs m) = 6%nat ->
  exists m' custom,
    isCustomConnectString m = Some custom
    /\ Update (HostSSHConfigLoaded c) m = Some (m', CmdNil)
    /\ map input.Placeholder (drop 3 (inputs m')) =
         map (fun s => (if custom : bool then "readonly: " else "default: ") ++ s)
             [ ssh.User (HostSSHConfig (appState m));
               ssh.Port (HostSSHConfig (appState m));
               ssh.IdentityFile (HostSSHConfig (appState m)) ]
    /\ map input.Placeholder (take 3 (inputs m')) =
       map input.Placeholder (take 3 (inputs m))
    /\ map input.Value (inputs m') = map input.Value (inputs m)
    /\ rest m' = rest m
    /\ focusedInput m' = focusedInput m
    /\ Update (HostSSHConfigLoaded c') m' = Some (m', CmdNil).
Proof.
  intros Hlen. six_fields m Hlen.
  unfold Update, updateInputPlaceholders, updateInputTitles, setPlaceholder,
    isCustomConnectString, setEnabledAt, setInput, inputAddress, inputLogin,
    inputNetworkPort, inputIdentityFile.
  unfold goint.index, goint.store. cbn [Z.leb Z.compare].
  change (Z.to_nat 1) with 1%nat. change (Z.to_nat 3) with 3%nat.
  change (Z.to_nat 4) with 4%nat. change (Z.to_nat 5) with 5%nat.
  cbn -[strings.TrimSpace strings.Contains append].
  destruct i3, i4, i5.
  destruct (strings.Contains _ _ || strings.Contains _ _) eqn:E;
    repeat (progress
              (cbn -[strings.TrimSpace strings.Contains append Z.to_nat];
               change (Z.to_nat 1) with 1%nat; change (Z.to_nat 3) with 3%nat;
               change (Z.to_nat 4) with 4%nat; change (Z.to_nat 5) with 5%nat;
               rewrite ?E));
    eexists _, _;
    repeat match goal with |- _ /\ _ => split end; try reflexivity;
    repeat (progress
              (cbn -[strings.TrimSpace strings.Contains append Z.to_nat];
               change (Z.to_nat 1) with 1%nat; change (Z.to_nat 3) with 3%nat;
               change (Z.to_nat 4) with 4%nat; change (Z.to_nat 5) with 5%nat;
               rewrite ?E));
    reflexivity.
Qed.

(** X17. [New] shows the record the storage holds under the id: the six
    fields hold its title, address, description, login, port and key path
    as the widget stores them, that is the runes it makes of them cut to
    the character limit of the field (none for the title, 128, 512, 128, 5
    and 512 runes for the others), whatever the validators say of them;
    for an id the storage does not know the record is the empty one and
    the form counts as new. The focus flag is on the title alone, every
    field is enabled and none shows an error. *)
Theorem New_fields (itemID : option Z) (st : Store) (state : ApplicationState) :
  exists m,
    New itemID st state = Some m
    /\ host m = default model.zero (storageGet st (default 0 itemID))
    /\ hostStorage m = st
    /\ (isNewHost m = false <-> is_Some (storageGet st (default 0 itemID)))
    /\ map input.Value (inputs m) =
         [ shownText 0 (model.Title (host m));
           shownText 128 (model.Address (host m));
           shownText 512 (model.Description (host m));
           shownText 128 (model.LoginName (host m));
           shownText 5 (model.RemotePort (host m));
           shownText 512 (model.PrivateKeyPath (host m)) ]
    /\ map input.CharLimit (inputs m) = [0; 128; 512; 128; 5; 512]
    /\ map input.Label (inputs m) =
         ["Title"; "Host"; "Description"; "Login"; "Network port";
          "Identity file"]
    /\ map input.focused (inputs m) = [true; false; false; false; false; false]
    /\ map input.enabled (inputs m) = [true; true; true; true; true; true]
    /\ map input.Err (inputs m) = [None; None; None; None; None; None]
    /\ title m = defaultTitle.
Proof.
  unfold New. cbv zeta. eexists. split; [reflexivity|].
  cbn [host hostStorage isNewHost inputs title setInput withInputs].
  split; [reflexivity|]. split; [reflexivity|]. split.
  - destruct (storageGet st (default 0 itemID)); cbn; split;
      try discriminate; eauto; intros [? H]; discriminate H.
  - unfold shownText. rewrite <- !cut_limited.
    repeat match goal with |- _ /\ _ => split end; reflexivity.
Qed.

(** X18. A stored record that is shown and saved with no key in between
    goes to the storage as the fields show it, when the validators accept
    the title, the address and the port they show: each field as the
    widget stores it within the limit of its field, the id as it was. The
    storage gets the very record [New] got from it when every field of
    the record is shown as it is. *)
Theorem New_save_round_trip (id : Z) (st : Store) (state : ApplicationState)
    (h : model.Host) :
  storageGet st id = Some h ->
  notEmptyValidator (model.Title (shown h)) = None ->
  notEmptyValidator (model.Address (shown h)) = None ->
  networkPortValidator (model.RemotePort (shown h)) = None ->
  exists m,
    New (Some id) st state = Some m
    /\ isNewHost m = false
    /\ save m =
         Some (withHostStorage (fst (storageSave st (shown h)))
                               (withHost (shown h) m),
               Sequence
                 [ TeaCmd MsgClose;
                   TeaCmd (HostListSelectItem
                             (model.ID (fst (snd (storageSave st (shown h))))));
                   TeaCmd MsgRefreshRepo ])
    /\ (shown h = h ->
        save m =
          Some (withHostStorage (fst (storageSave st h)) m,
                Sequence
                  [ TeaCmd MsgClose;
                    TeaCmd (HostListSelectItem
                              (model.ID (fst (snd (storageSave st h)))));
                    TeaCmd MsgRefreshRepo ])).
Proof.
  intros Hget Ht Ha Hp.
  assert (exists m, New (Some id) st state = Some m
                    /\ isNewHost m = false
                    /\ host m = h
                    /\ save m =
                         Some (withHostStorage (fst (storageSave st (shown h)))
                                 (withHost (shown h) m),
                               Sequence
                                 [ TeaCmd MsgClose;
                                   TeaCmd (HostListSelectItem
                                     (model.ID
                                        (fst (snd (storageSave st (shown h))))));
                                   TeaCmd MsgRefreshRepo ]))
    as (m & Hnew & Hn & Hh & Hsave).
  { unfold New. cbv zeta. change (default 0 (Some id)) with id.
    rewrite Hget. change (default model.zero (Some h)) with h.
    eexists. split; [reflexivity|].
    cbn [isNewHost host setInput withInputs]. split; [reflexivity|].
    split; [reflexivity|].
    destruct h as [hid ht hd ha hp hl hk].
    unfold shown, shownText in *. rewrite <- !cut_limited in *.
    cbn [model.Title model.Address model.RemotePort model.Description
         model.LoginName model.PrivateKeyPath model.ID] in *.
    unfold save.
    cbv -[notEmptyValidator networkPortValidator storageSave utf8.String
          input.cut input.Sanitize inputSanitizer].
    rewrite Ht.
    cbv -[notEmptyValidator networkPortValidator storageSave utf8.String
          input.cut input.Sanitize inputSanitizer].
    rewrite Ha.
    cbv -[notEmptyValidator networkPortValidator storageSave utf8.String
          input.cut input.Sanitize inputSanitizer].
    rewrite Hp.
    cbv -[notEmptyValidator networkPortValidator storageSave utf8.String
          input.cut input.Sanitize inputSanitizer].
    destruct (storageSave st _) as [st' [h' e]]. reflexivity. }
  exists m. split; [exact Hnew|]. split; [exact Hn|]. split; [exact Hsave|].
  intros E. rewrite Hsave, E. repeat f_equal.
  destruct m; cbn in *. now subst.
Qed.

End ConstructionCoverage.

(** ** The properties at concrete form states *)

#[local] Existing Instances sample.commands sample.storage sample.environment.

(** The form states of [scenario] are reached from [New] by the messages
    that define them. *)
Lemma scenario_reached :
  scenario.run [] = Some scenario.start
  /\ scenario.run (scenario.keysOf ["down"]) = Some scenario.addressFocused
  /\ scenario.run (scenario.keysOf ["down"; "x"; "up"]) = Some scenario.diverged
  /\ scenario.run
       (scenario.keysOf ["s"; "r"; "v"; "down"; "down"; "down"; "down"; "x"])
     = Some scenario.invalidPort
  /\ scenario.run
       (scenario.keysOf
          ["s"; "r"; "v"; "down"; "down"; "down"; "down"; "2"; "2"])
     = Some scenario.validPort
  /\ scenario.run (scenario.keysOf ["down"; "a"; "@"] ++ [scenario.loaded])
     = Some scenario.customAddress
  /\ scenario.run
       (scenario.keysOf ["down"; "a"; "@"] ++ [scenario.loaded]
        ++ scenario.keysOf ["backspace"])
     = Some scenario.structuredAgain
  /\ scenario.run (scenario.keysOf (repeat "a" 128))
     = Some scenario.longTitle
  /\ scenario.run (scenario.keysOf (repeat "a" 129))
     = Some scenario.overlong.
Proof.
  repeat match goal with |- _ /\ _ => split end; vm_compute; reflexivity.
Qed.

(** C1 as stated fails. In [scenario.invalidPort] the network port is the
    first refused field; [save] stops there with the title and the address
    of the record already overwritten. *)
Lemma save_mutates_record_before_refused_field :
  ~ saveAbortsUnmutated scenario.invalidPort.
Proof.
  intros H.
  assert (exists inp err,
            firstInvalid (hostedit.inputs scenario.invalidPort)
            = Some (4%nat, inp, err)) as (inp & err & E)
    by (vm_compute; eauto).
  destruct (H _ _ _ E) as (m' & Hs & _ & Hh).
  assert ((fun r => model.Title (hostedit.host (fst r)))
            <$> hostedit.save scenario.invalidPort = Some "srv") as Hc
    by (vm_compute; reflexivity).
  rewrite Hs in Hc. cbn [fmap option_fmap option_map fst] in Hc.
  rewrite Hh in Hc. vm_compute in Hc. discriminate Hc.
Qed.

(** C1, amended, on [scenario.invalidPort]. *)
Lemma save_invalid_field_witness :
  exists m',
    hostedit.save scenario.invalidPort = Some (m', CmdNil)
    /\ hostedit.title m' = "Network port is not valid"
    /\ hostedit.hostStorage m' = []
    /\ fieldOf 4 (hostedit.host m') = ""
    /\ fieldOf 0 (hostedit.host m') = "srv".
Proof.
  destruct (save_invalid_field scenario.invalidPort 4
              (default input.New (hostedit.inputs scenario.invalidPort !! 4%nat))
              "network port must be a number which is less than 65,535")
    as (m' & H1 & H2 & H3 & _ & H5 & H6 & _).
  { vm_compute. reflexivity. }
  exists m'. split; [exact H1|]. split; [rewrite H2; vm_compute; reflexivity|].
  split; [rewrite H3; vm_compute; reflexivity|]. split.
  - rewrite (H5 4) by lia. vm_compute. reflexivity.
  - change 0 with (Z.of_nat 0).
    rewrite (H6 0%nat
               (default input.New (hostedit.inputs scenario.invalidPort !! 0%nat)));
      [vm_compute; reflexivity | lia | lia | vm_compute; reflexivity].
Defined.

(** C8 on [scenario.validPort]: the storage numbers the new record 1. *)
Lemma save_valid_witness :
  exists m',
    hostedit.save scenario.validPort =
      Some (m', Sequence [ TeaCmd MsgClose;
                           TeaCmd (HostListSelectItem 1);
                           TeaCmd MsgRefreshRepo ])
    /\ hostedit.host m' = model.mkHost 0 "srv" "" "srv" "22" "" "".
Proof.
  destruct (save_valid scenario.validPort) as (H1 & _).
  { vm_compute. reflexivity. }
  { apply firstInvalid_None. vm_compute. reflexivity. }
  eexists. split; [rewrite H1; vm_compute; reflexivity|].
  vm_compute. reflexivity.
Defined.

(** C7 on the form as [New] returns it. *)
Lemma focus_stays_in_range_witness :
  (exists m',
      navigate ["down"; "down"; "up"; "up"; "up"] scenario.start = Some m'
      /\ 0 <= hostedit.focusedInput m' <= 5)
  /\ (exists m' c,
        hostedit.inputFocusChange (KeyMsg "up") scenario.start = Some (m', c)
        /\ hostedit.focusedInput m' = 0)
  /\ (exists m' c,
        hostedit.inputFocusChange (KeyMsg "down") scenario.start = Some (m', c)
        /\ hostedit.focusedInput m' = 1).
Proof.
  destruct (focus_stays_in_range scenario.start) as (H1 & H2 & H3).
  { vm_compute. split; [discriminate | reflexivity]. }
  { vm_compute. split; discriminate. }
  split; [|split].
  - destruct (H1 ["down"; "down"; "up"; "up"; "up"]) as (m' & Hn & Hl & Hf).
    exists m'. split; [exact Hn|]. rewrite Hl in Hf. exact Hf.
  - destruct (H2 "up") as (m' & c & Hs & Hf); [vm_compute; split; reflexivity|].
    exists m', c. split; [exact Hs | exact Hf].
  - destruct (H3 "down") as (m' & c & Hs & Hf); [vm_compute; split; reflexivity|].
    exists m', c. split; [exact Hs | exact Hf].
Defined.

(** C6 as stated fails. In [scenario.longTitle] the record is new, the
    title has the focus and the title and the address both hold 128 times
    the letter [a]. One more [a] gives a title of 129 runes; the address,
    whose character limit is 128, holds the first 128 of them. *)
Lemma title_longer_than_address_limit_is_cut :
  ~ titleKeyMirrors (KeyMsg "a") scenario.longTitle.
Proof.
  intros H.
  destruct (H (default input.New (hostedit.inputs scenario.longTitle !! 0%nat))
              (default input.New (hostedit.inputs scenario.longTitle !! 1%nat)))
    as (m' & c & t' & a' & H1 & H2 & H3 & H4); [vm_compute; reflexivity ..|].
  assert ((fun r =>
             (input.Value <$> goint.index (hostedit.inputs (fst r))
                                          hostedit.inputTitle,
              input.Value <$> goint.index (hostedit.inputs (fst r))
                                          hostedit.inputAddress))
            <$> hostedit.focusedInputProcessKeyEvent (KeyMsg "a")
                  scenario.longTitle
          = Some (Some (string_of_list_ascii (repeat "a"%char 129)),
                  Some (string_of_list_ascii (repeat "a"%char 128)))) as E
    by (vm_compute; reflexivity).
  rewrite H1 in E. cbn [fmap option_fmap option_map fst] in E.
  rewrite H2, H3 in E. cbn [fmap option_fmap option_map] in E.
  injection E as Et Ea. rewrite Et, Ea in H4. vm_compute in H4.
  discriminate H4.
Qed.

(** C6, amended, on a new record whose title and address are both empty,
    on one whose title and address hold 128 runes, and on one whose
    address was typed by hand. *)
Lemma title_key_mirrors_into_address_witness :
  (exists m' c a',
      hostedit.focusedInputProcessKeyEvent (KeyMsg "a") scenario.start
      = Some (m', c)
      /\ goint.index (hostedit.inputs m') hostedit.inputAddress = Some a'
      /\ input.Value a' = "a")
  /\ (exists m' c t' a',
        hostedit.focusedInputProcessKeyEvent (KeyMsg "a") scenario.longTitle
        = Some (m', c)
        /\ goint.index (hostedit.inputs m') hostedit.inputTitle = Some t'
        /\ goint.index (hostedit.inputs m') hostedit.inputAddress = Some a'
        /\ input.Value t' = string_of_list_ascii (repeat "a"%char 129)
        /\ input.Value a' = string_of_list_ascii (repeat "a"%char 128))
  /\ (exists m' c a',
        hostedit.focusedInputProcessKeyEvent (KeyMsg "a") scenario.diverged
        = Some (m', c)
        /\ goint.index (hostedit.inputs m') hostedit.inputAddress = Some a'
        /\ input.Value a' = "x").
Proof.
  split; [|split].
  - destruct (title_key_mirrors_into_address (KeyMsg "a") scenario.start
                (default input.New (hostedit.inputs scenario.start !! 0%nat))
                (default input.New (hostedit.inputs scenario.start !! 1%nat)))
      as [H _]; [vm_compute; reflexivity ..|].
    destruct H as (m' & c & a' & H1 & _ & H3 & _ & H5);
      [vm_compute; reflexivity | vm_compute; reflexivity
       | vm_compute; eexists; reflexivity |].
    exists m', c, a'. split; [exact H1|]. split; [exact H3|].
    rewrite H5; [vm_compute; reflexivity | vm_compute; reflexivity |].
    right. vm_compute. discriminate.
  - destruct (title_key_mirrors_into_address (KeyMsg "a") scenario.longTitle
                (default input.New (hostedit.inputs scenario.longTitle !! 0%nat))
                (default input.New (hostedit.inputs scenario.longTitle !! 1%nat)))
      as [H _]; [vm_compute; reflexivity ..|].
    destruct H as (m' & c & a' & H1 & H2 & H3 & H4 & _);
      [vm_compute; reflexivity | vm_compute; reflexivity
       | vm_compute; eexists; reflexivity |].
    eexists m', c, _, a'. split; [exact H1|]. split; [exact H2|].
    split; [exact H3|]. split; [vm_compute; reflexivity|].
    unfold input.Value at 1. rewrite H4. vm_compute. reflexivity.
  - destruct (title_key_mirrors_into_address (KeyMsg "a") scenario.diverged
                (default input.New (hostedit.inputs scenario.diverged !! 0%nat))
                (default input.New (hostedit.inputs scenario.diverged !! 1%nat)))
      as [_ H]; [vm_compute; reflexivity ..|].
    destruct H as (m' & c & H1 & _ & H3); [vm_compute; discriminate|].
    eexists m', c, _. split; [exact H1|]. split; [exact H3|].
    vm_compute. reflexivity.
Defined.

(** C5 on the address [ a@b ], on the address [ a ], which has spaces
    around it only, and on the address [a@] of a form. *)
Lemma address_mode_detector_witness :
  let h := host.NewHost 0 "" "" " a@b " "" "" "" "" in
  let h' := host.NewHost 0 "" "" " a " "" "" "" "" in
  (host.IsUserDefinedSSHCommand h = true /\ userDefined " a@b ")
  /\ (host.IsUserDefinedSSHCommand h' = false /\ ~ userDefined " a ")
  /\ hostedit.isCustomConnectString scenario.customAddress
     = Some (host.IsUserDefinedSSHCommand
               (host.NewHost 0 "" "" "a@" "" "" "" "")).
Proof.
  cbv zeta. split; [|split].
  - destruct (address_mode_detector (Store := sample.store) " a@b ")
      as [H _].
    destruct (H (host.NewHost 0 "" "" " a@b " "" "" "" "") eq_refl) as [H1 _].
    split; [vm_compute; reflexivity|]. apply H1. vm_compute. reflexivity.
  - destruct (address_mode_detector (Store := sample.store) " a ")
      as [H _].
    destruct (H (host.NewHost 0 "" "" " a " "" "" "" "") eq_refl) as [_ H2].
    split; [vm_compute; reflexivity|]. apply H2. vm_compute. reflexivity.
  - destruct (address_mode_detector (Store := sample.store) "a@") as [_ H].
    apply (H scenario.customAddress
             (default input.New
                (hostedit.inputs scenario.customAddress !! 1%nat)));
      vm_compute; reflexivity.
Defined.

(** C3, at its failing input. In [scenario.structuredAgain] the address is
    [a], a structured one, and the login, port and identity file fields
    were switched off while it was [a@]. The notification is handled, the
    placeholders go back to their default form, and the three fields stay
    switched off. *)
Theorem config_loaded_keeps_fields_disabled :
  hostedit.isCustomConnectString scenario.structuredAgain = Some false
  /\ exists m',
       hostedit.Update scenario.loaded scenario.structuredAgain
       = Some (m', CmdNil)
       /\ map input.Value (hostedit.inputs m') = [""; "a"; ""; ""; ""; ""]
       /\ map input.Placeholder (drop 3 (hostedit.inputs m'))
          = ["default: root"; "default: 22"; "default: "]
       /\ map input.enabled (hostedit.inputs m')
          = [true; true; true; false; false; false].
Proof.
  split; [vm_compute; reflexivity|].
  eexists. split; [vm_compute; reflexivity|].
  repeat match goal with |- _ /\ _ => split end; vm_compute; reflexivity.
Qed.

(** C4, at its failing input. On the form of a new record with the focus
    on the address, the keys [a] and [b] are handled before the envelope
    of the first is: both envelopes carry the tag 0. The two envelopes are
    then processed and the two timers fire: neither delivers its message,
    so the request for the address [ab] is lost. *)
Theorem burst_handled_before_envelopes_delivers_nothing :
  let envelopeA := debouncedMessage (RunProcessLoadSSHConfig "a") 0 in
  let envelopeAB := debouncedMessage (RunProcessLoadSSHConfig "ab") 0 in
  let m1 := scenario.after (scenario.keysOf ["down"; "a"]) in
  let m2 := scenario.after (scenario.keysOf ["down"; "a"; "b"]) in
  let m3 := scenario.after (scenario.keysOf ["down"; "a"; "b"] ++ [envelopeA]) in
  let m4 :=
    scenario.after
      (scenario.keysOf ["down"; "a"; "b"] ++ [envelopeA; envelopeAB]) in
  hostedit.Update (KeyMsg "a") scenario.addressFocused
  = Some (m1, TeaCmd envelopeA)
  /\ hostedit.Update (KeyMsg "b") m1 = Some (m2, TeaCmd envelopeAB)
  /\ hostedit.Update envelopeA m2
     = Some (m3, Tick hostedit.debounceTime (RunProcessLoadSSHConfig "a") 0)
  /\ hostedit.Update envelopeAB m3
     = Some (m4, Tick hostedit.debounceTime (RunProcessLoadSSHConfig "ab") 0)
  /\ map input.Value (hostedit.inputs m4) = [""; "ab"; ""; ""; ""; ""]
  /\ hostedit.debounceTag m4 = 2
  /\ fire m4 [(RunProcessLoadSSHConfig "a", 0); (RunProcessLoadSSHConfig "ab", 0)]
     = [None; None].
Proof.
  cbv zeta.
  repeat match goal with |- _ /\ _ => split end; vm_compute; reflexivity.
Qed.

(** ** Further properties at concrete inputs *)

(** X1 on the addresses [a@] and [example.com]. *)
Lemma IsUserDefinedSSHCommand_at_sign_witness :
  host.IsUserDefinedSSHCommand (host.NewHost 0 "" "" "a@" "" "" "" "") = true
  /\ host.IsUserDefinedSSHCommand
       (host.NewHost 0 "" "" "example.com" "" "" "" "") = false.
Proof.
  split.
  - apply (IsUserDefinedSSHCommand_at_sign
             (host.NewHost 0 "" "" "a@" "" "" "" "")).
    vm_compute. right. left. reflexivity.
  - apply (IsUserDefinedSSHCommand_at_sign
             (host.NewHost 0 "" "" "example.com" "" "" "" ""));
      vm_compute; intuition discriminate.
Defined.

(** X2 on the address of three spaces. *)
Lemma IsUserDefinedSSHCommand_blank_witness :
  host.IsUserDefinedSSHCommand (host.NewHost 0 "" "" "   " "" "" "" "") = false.
Proof.
  apply (IsUserDefinedSSHCommand_blank _ 3). reflexivity.
Defined.

(** X3 on a host with a password. *)
Lemma CmdSSHConfig_fields_witness :
  host.CmdSSHConfig (host.NewHost 1 "srv" "" "10.0.0.5" "root" "/k" "22" "x")
  = "ssh -i /k -p 22 -l root -G 10.0.0.5".
Proof.
  rewrite (proj2 (proj2 (CmdSSHConfig_fields
             (host.NewHost 1 "srv" "" "10.0.0.5" "root" "/k" "22" "x"))));
    vm_compute; reflexivity.
Defined.

(** X4 on the same host, with and without its password. *)
Lemma CmdSSHConnect_structured_witness :
  host.CmdSSHConnect (host.NewHost 1 "srv" "" "10.0.0.5" "root" "/k" "22" "x")
  = "sshpass -p 'x' ssh -i /k -p 22 -l root 10.0.0.5"
  /\ host.CmdSSHConnect (host.NewHost 1 "srv" "" "10.0.0.5" "root" "/k" "22" "")
     = "ssh -i /k -p 22 -l root 10.0.0.5".
Proof.
  split.
  - rewrite (proj2 (CmdSSHConnect_structured
               (host.NewHost 1 "srv" "" "10.0.0.5" "root" "/k" "22" "x")
               ltac:(vm_compute; reflexivity)));
      [vm_compute; reflexivity | discriminate].
  - rewrite (proj1 (CmdSSHConnect_structured
               (host.NewHost 1 "srv" "" "10.0.0.5" "root" "/k" "22" "")
               ltac:(vm_compute; reflexivity)));
      vm_compute; reflexivity.
Defined.

(** X7 with the password ordinal 6. *)
Lemma get_set_witness :
  hostedit.getHostAttributeValueByIndex 6 6
    (hostedit.setHostAttributeByIndex 6 6 "x"
       (hostedit.wrap (host.NewHost 1 "srv" "" "10.0.0.5" "" "" "" "")))
  = "x".
Proof.
  apply (get_set 6 6). vm_compute. right. reflexivity.
Defined.

(** X8 with the password ordinal 6: the login is set, the title is read;
    the ordinal 9 is unknown. *)
Lemma set_frame_witness :
  let m := hostedit.wrap (host.NewHost 1 "srv" "" "10.0.0.5" "" "" "" "") in
  hostedit.getHostAttributeValueByIndex 6 0
    (hostedit.setHostAttributeByIndex 6 3 "root" m) = "srv"
  /\ hostedit.setHostAttributeByIndex 6 9 "x" m = m.
Proof.
  cbv zeta. split.
  - rewrite (proj1 (set_frame 6 3 "root" _) 0); [reflexivity | lia].
  - apply (proj2 (proj2 (proj2 (set_frame 6 9 "x" _)))).
    vm_compute. intuition discriminate.
Defined.

(** X9 with the password ordinal 6, on the title and the address. *)
Lemma set_set_witness :
  let m := hostedit.wrap (host.NewHost 1 "srv" "" "10.0.0.5" "" "" "" "") in
  hostedit.setHostAttributeByIndex 6 0 "a"
    (hostedit.setHostAttributeByIndex 6 1 "b" m)
  = hostedit.setHostAttributeByIndex 6 1 "b"
      (hostedit.setHostAttributeByIndex 6 0 "a" m).
Proof.
  cbv zeta. apply (proj2 (proj2 (set_set 6 0 1 "a" "b" _))). lia.
Defined.

(** X10 on the key [a] typed in the address of a new record. *)
Lemma Update_keeps_record_witness :
  hostedit.host (scenario.after (scenario.keysOf ["down"; "a"]))
  = hostedit.host scenario.addressFocused
  /\ hostedit.hostStorage (scenario.after (scenario.keysOf ["down"; "a"]))
     = hostedit.hostStorage scenario.addressFocused.
Proof.
  destruct (Update_keeps_record (KeyMsg "a") scenario.addressFocused
              (scenario.after (scenario.keysOf ["down"; "a"]))
              (TeaCmd (debouncedMessage (RunProcessLoadSSHConfig "a") 0)))
    as (H1 & H2 & _).
  - vm_compute. reflexivity.
  - intros k [= <-]. vm_compute. reflexivity.
  - split; [exact H1 | exact H2].
Defined.

(** X11 on the key [down] after a save that failed on the port. *)
Lemma Update_title_witness :
  hostedit.title
    (scenario.after
       (scenario.keysOf
          ["s"; "r"; "v"; "down"; "down"; "down"; "down"; "x"; "ctrl+s"]))
  = "Network port is not valid"
  /\ hostedit.title
       (scenario.after
          (scenario.keysOf
             ["s"; "r"; "v"; "down"; "down"; "down"; "down"; "x"; "ctrl+s";
              "down"]))
     = "host details".
Proof.
  split; [vm_compute; reflexivity|].
  rewrite (Update_title (KeyMsg "down")
             (scenario.after
                (scenario.keysOf
                   ["s"; "r"; "v"; "down"; "down"; "down"; "down"; "x";
                    "ctrl+s"]))
             _ (Batch [FocusCmd])).
  - reflexivity.
  - vm_compute. reflexivity.
  - intros k [= <-]. vm_compute. reflexivity.
Defined.

(** X12 on [scenario.invalidPort]. *)
Lemma save_marks_refused_field_witness :
  exists m',
    hostedit.save scenario.invalidPort = Some (m', CmdNil)
    /\ map input.Err (hostedit.inputs m') =
         [ None; None; None; None;
           Some "network port must be a number which is less than 65,535";
           None ]
    /\ map input.Value (hostedit.inputs m') = ["srv"; "srv"; ""; ""; "x"; ""].
Proof.
  destruct (save_marks_refused_field scenario.invalidPort 4
              (default input.New (hostedit.inputs scenario.invalidPort !! 4%nat))
              "network port must be a number which is less than 65,535")
    as (m' & H1 & H2 & _).
  { vm_compute. reflexivity. }
  exists m'. split; [exact H1|]. rewrite H2. split; vm_compute; reflexivity.
Defined.

(** X13 on the key [a] typed in the address and in the title of a new
    record. *)
Lemma focusedInputProcessKeyEvent_cmd_witness :
  (exists m',
      hostedit.focusedInputProcessKeyEvent (KeyMsg "a") scenario.addressFocused
      = Some (m', TeaCmd (debouncedMessage (RunProcessLoadSSHConfig "a") 0)))
  /\ (exists m',
        hostedit.focusedInputProcessKeyEvent (KeyMsg "a") scenario.start
        = Some (m', CmdNil)
        /\ map input.Value (hostedit.inputs m') = ["a"; "a"; ""; ""; ""; ""]).
Proof.
  split.
  - destruct (hostedit.focusedInputProcessKeyEvent (KeyMsg "a")
                scenario.addressFocused) as [[m' c]|] eqn:E;
      [|vm_compute in E; discriminate E].
    destruct (focusedInputProcessKeyEvent_cmd _ _ _ _ E) as (x & Hx & _ & _ & Hc).
    exists m'. rewrite Hc. f_equal. f_equal.
    assert (x = default input.New
                  (hostedit.inputs scenario.addressFocused !! 1%nat)) as ->
      by (apply (inj Some); rewrite <- Hx; vm_compute; reflexivity).
    vm_compute. reflexivity.
  - destruct (hostedit.focusedInputProcessKeyEvent (KeyMsg "a")
                scenario.start) as [[m' c]|] eqn:E;
      [|vm_compute in E; discriminate E].
    destruct (focusedInputProcessKeyEvent_cmd _ _ _ _ E) as (x & _ & _ & _ & Hc).
    exists m'. split.
    + f_equal. f_equal. rewrite Hc. reflexivity.
    + assert ((fun r => map input.Value (hostedit.inputs (fst r)))
                <$> hostedit.focusedInputProcessKeyEvent (KeyMsg "a")
                      scenario.start
              = Some ["a"; "a"; ""; ""; ""; ""]) as H
        by (vm_compute; reflexivity).
      rewrite E in H. now injection H.
Defined.

(** X14 on [scenario.diverged], where the title is empty, the address is
    [x] and the title has the focus, so the address is emptied and shows
    the error of its validator; and on [scenario.overlong], where the
    title holds 129 runes, of which the address gets 128. *)
Lemma handleCopyInputValueShortcut_spec_witness :
  (exists m',
      hostedit.handleCopyInputValueShortcut scenario.diverged = Some m'
      /\ map input.Value (hostedit.inputs m') = [""; ""; ""; ""; ""; ""]
      /\ map input.Err (hostedit.inputs m') =
           [ Some "value is required"; Some "value is required";
             None; None; None; None ])
  /\ (exists m' a',
        hostedit.handleCopyInputValueShortcut scenario.overlong = Some m'
        /\ hostedit.inputs m' =
           goint.store (hostedit.inputs scenario.overlong)
                       hostedit.inputAddress a'
        /\ input.Value a' = string_of_list_ascii (repeat "a"%char 128)
        /\ input.cursor a' = 128).
Proof.
  split.
  - destruct (handleCopyInputValueShortcut_spec scenario.diverged
                (default input.New (hostedit.inputs scenario.diverged !! 0%nat))
                (default input.New (hostedit.inputs scenario.diverged !! 1%nat))
                hostedit.notEmptyValidator hostedit.notEmptyValidator)
      as (m' & H & _); [vm_compute; reflexivity ..|].
    exists m'. split; [exact H|].
    assert ((fun m => (map input.Value (hostedit.inputs m),
                       map input.Err (hostedit.inputs m)))
              <$> hostedit.handleCopyInputValueShortcut scenario.diverged
            = Some ([""; ""; ""; ""; ""; ""],
                    [ Some "value is required"; Some "value is required";
                      None; None; None; None ])) as E
      by (vm_compute; reflexivity).
    rewrite H in E. cbn [fmap option_fmap option_map] in E.
    injection E as E1 E2. split; assumption.
  - destruct (handleCopyInputValueShortcut_spec scenario.overlong
                (default input.New (hostedit.inputs scenario.overlong !! 0%nat))
                (default input.New (hostedit.inputs scenario.overlong !! 1%nat))
                hostedit.notEmptyValidator hostedit.notEmptyValidator)
      as (m' & H & _ & _ & Hc & _); [vm_compute; reflexivity ..|].
    destruct Hc as (a' & H1 & H2 & _ & _ & _ & H6); [vm_compute; reflexivity|].
    exists m', a'. split; [exact H|]. split; [exact H1|].
    assert (input.Value a' = string_of_list_ascii (repeat "a"%char 128)) as Hv
      by (unfold input.Value; rewrite H2; vm_compute; reflexivity).
    split; [exact Hv|].
    rewrite H6, H2. vm_compute. reflexivity.
Defined.

(** X15 on the key [down] on the form as [New] returns it. *)
Lemma inputFocusChange_moved_witness :
  let m' := scenario.after (scenario.keysOf ["down"]) in
  map input.focused (hostedit.inputs m')
  = [false; true; false; false; false; false]
  /\ key.disabled (CopyInputValue (hostedit.keyMap_ m')) = false.
Proof.
  cbv zeta.
  destruct (inputFocusChange_moved "down" scenario.start
              (scenario.after (scenario.keysOf ["down"])) (Batch [FocusCmd]))
    as (_ & Hk & _).
  - vm_compute. split; [discriminate | reflexivity].
  - vm_compute. split; discriminate.
  - vm_compute. reflexivity.
  - vm_compute. discriminate.
  - split; [vm_compute; reflexivity|]. rewrite Hk. vm_compute. reflexivity.
Defined.

(** X16 on [scenario.customAddress]. *)
Lemma config_loaded_placeholders_witness :
  exists m',
    hostedit.Update scenario.loaded scenario.customAddress = Some (m', CmdNil)
    /\ map input.Placeholder (drop 3 (hostedit.inputs m'))
       = ["readonly: root"; "readonly: 22"; "readonly: "]
    /\ hostedit.Update scenario.loaded m' = Some (m', CmdNil).
Proof.
  destruct (config_loaded_placeholders
              (ssh.mkConfig "10.0.0.5" "/k" "22" "root")
              (ssh.mkConfig "10.0.0.5" "/k" "22" "root")
              scenario.customAddress)
    as (m' & custom & Hc & H1 & H2 & _ & _ & _ & _ & H3);
    [vm_compute; reflexivity|].
  exists m'. split; [exact H1|]. split; [|exact H3].
  rewrite H2.
  assert (custom = true) as ->
    by (apply (inj Some); rewrite <- Hc; vm_compute; reflexivity).
  vm_compute. reflexivity.
Defined.

(** X17 on a storage that holds [scenario.stored]: of the six digits of
    the port the field shows five. *)
Lemma New_fields_witness :
  exists m,
    hostedit.New (storage := sample.storage) (Some 1) [scenario.stored]
                 sample.state = Some m
    /\ (hostedit.isNewHost m = false)
    /\ map input.Value (hostedit.inputs m)
       = ["srv"; "10.0.0.5"; ""; "root"; "12345"; "/k"].
Proof.
  destruct (New_fields (storage := sample.storage) (Some 1) [scenario.stored]
              sample.state)
    as (m & H & Hh & _ & Hn & Hv & _).
  exists m. split; [exact H|]. split.
  - apply Hn. vm_compute. eexists. reflexivity.
  - rewrite Hv, Hh. vm_compute. reflexivity.
Defined.

(** X18 on a storage that holds [scenario.stored], which goes back with
    the port the field shows, and on a storage that holds a record whose
    fields are all shown as they are. *)
Lemma New_save_round_trip_witness :
  let cut := model.mkHost 1 "srv" "" "10.0.0.5" "12345" "root" "/k" in
  let h := model.mkHost 1 "srv" "" "10.0.0.5" "22" "root" "/k" in
  (exists m,
      hostedit.New (storage := sample.storage) (Some 1) [scenario.stored]
                   sample.state = Some m
      /\ hostedit.save m =
           Some (hostedit.withHostStorage [cut; scenario.stored]
                   (hostedit.withHost cut m),
                 Sequence [ TeaCmd MsgClose;
                            TeaCmd (HostListSelectItem 1);
                            TeaCmd MsgRefreshRepo ]))
  /\ (exists m,
        hostedit.New (storage := sample.storage) (Some 1) [h] sample.state
        = Some m
        /\ hostedit.save m =
             Some (hostedit.withHostStorage [h; h] m,
                   Sequence [ TeaCmd MsgClose;
                              TeaCmd (HostListSelectItem 1);
                              TeaCmd MsgRefreshRepo ])).
Proof.
  cbv zeta. split.
  - destruct (New_save_round_trip (storage := sample.storage) 1
                [scenario.stored] sample.state scenario.stored)
      as (m & H1 & _ & H2 & _); [vm_compute; reflexivity ..|].
    exists m. split; [exact H1 | exact H2].
  - destruct (New_save_round_trip (storage := sample.storage) 1
                [model.mkHost 1 "srv" "" "10.0.0.5" "22" "root" "/k"]
                sample.state
                (model.mkHost 1 "srv" "" "10.0.0.5" "22" "root" "/k"))
      as (m & H1 & _ & _ & H2); [vm_compute; reflexivity ..|].
    exists m. split; [exact H1 | apply H2; vm_compute; reflexivity].
Defined.

(** X19 on three calls handled in sequence on a new form. *)
Lemma sequentialBurst_delivers_last_witness :
  let ws := [RunProcessLoadSSHConfig "a"; RunProcessLoadSSHConfig "ab"] in
  let r :=
    sequentialBurst (ws ++ [RunProcessLoadSSHConfig "abc"])
                    scenario.addressFocused in
  fire (fst r) (snd r) = [None; None; Some (RunProcessLoadSSHConfig "abc")].
Proof.
  cbv zeta.
  apply (sequentialBurst_delivers_last
           [RunProcessLoadSSHConfig "a"; RunProcessLoadSSHConfig "ab"]
           (RunProcessLoadSSHConfig "abc") scenario.addressFocused);
    vm_compute; split; first [discriminate | reflexivity].
Defined.

(** X20 in the concrete environment, whose widget changes the text only. *)
Lemma reachable_wellFormed_witness :
  exists m,
    scenario.run (scenario.keysOf ["down"; "a"; "@"; "alt+enter"; "ctrl+s"])
    = Some m
    /\ wellFormed m.
Proof.
  apply (reachable_wellFormed (env := sample.environment)
           (storage := sample.storage)).
  intros msg i. destruct msg; try reflexivity. simpl.
  destruct (negb (input.enabled i)); [reflexivity|].
  destruct (String.eqb key "backspace"); reflexivity.
Defined.
